(** * Agent Query UI (streamlit_app.py): endpoint probing, session state and
    response rendering.

    A shallow embedding of [src/frontend_streamlit_interface/streamlit_app.py].
    Python values that travel through the program are JSON values; the backend,
    the clock and the process environment are an explicit runtime; HTTP calls
    thread a machine state that also records every request sent. *)

From Stdlib Require Import ZArith List String Ascii Bool Lia.
From Stdlib Require Import PrimFloat FloatOps SpecFloat.
From Stdlib Require Import DecimalString.
Import ListNotations.
Open Scope string_scope.
Open Scope Z_scope.
Set Warnings "-register-all".

(* ================================================================== *)
(** * Python values *)
(* ================================================================== *)

(** The values [resp.json()] can produce.  A Python [dict] keeps insertion
    order, which the program observes (iteration over [paths.keys()]), so it is
    an association list; Python guarantees its keys are distinct.  [None] and
    JSON's null are the same value. *)
Inductive json : Type :=
| JNull
| JBool (b : bool)
| JInt (n : Z)
| JFloat (x : float)
| JStr (s : string)
| JList (l : list json)
| JDict (d : list (string * json)).

(** [bool(v)]. *)
Definition truthy (v : json) : bool :=
  match v with
  | JNull => false
  | JBool b => b
  | JInt n => negb (n =? 0)
  | JFloat x => negb (PrimFloat.eqb x 0%float)
  | JStr s => negb (String.eqb s "")
  | JList l => match l with [] => false | _ => true end
  | JDict d => match d with [] => false | _ => true end
  end.

(** [a or b]. *)
Definition py_or (a b : json) : json := if truthy a then a else b.

(** [k in d] and [d[k]] for a dict [d]. *)
Fixpoint dict_lookup (k : string) (d : list (string * json)) : option json :=
  match d with
  | [] => None
  | (k', v) :: rest => if String.eqb k k' then Some v else dict_lookup k rest
  end.

Definition dict_has (k : string) (d : list (string * json)) : bool :=
  match dict_lookup k d with Some _ => true | None => false end.

(** [d.get(k)]: the value, or [None]. *)
Definition dict_get (k : string) (d : list (string * json)) : json :=
  match dict_lookup k d with Some v => v | None => JNull end.

(** [x in l] for a list of strings [l]. *)
Definition in_list (x : string) (l : list string) : bool :=
  existsb (String.eqb x) l.

(** ** Strings

    A string is a sequence of one-byte characters: [lower], [strip], lengths
    and slices agree with Python's on ASCII text. *)

Definition lower_ascii (c : ascii) : ascii :=
  let n := nat_of_ascii c in
  if (Nat.leb 65 n && Nat.leb n 90)%bool then ascii_of_nat (n + 32) else c.

(** [s.lower()], on the ASCII letters. *)
Fixpoint lower (s : string) : string :=
  match s with
  | EmptyString => EmptyString
  | String c rest => String (lower_ascii c) (lower rest)
  end.

(** [needle in hay] for two strings. *)
Fixpoint contains (needle hay : string) : bool :=
  match hay with
  | EmptyString => String.prefix needle EmptyString
  | String _ rest => (String.prefix needle hay || contains needle rest)%bool
  end.

Definition slash : ascii := "/"%char.

(** [s.lstrip('/')]. *)
Fixpoint lstrip_slash (s : string) : string :=
  match s with
  | String c rest => if Ascii.eqb c slash then lstrip_slash rest else s
  | EmptyString => EmptyString
  end.

(** [s.rstrip('/')]. *)
Fixpoint rstrip_slash (s : string) : string :=
  match s with
  | EmptyString => EmptyString
  | String c rest =>
      match rstrip_slash rest with
      | EmptyString => if Ascii.eqb c slash then EmptyString else String c EmptyString
      | r => String c r
      end
  end.

(** Python's whitespace among the ASCII characters. *)
Definition is_space (c : ascii) : bool :=
  let n := nat_of_ascii c in
  ((Nat.leb 9 n && Nat.leb n 13) || (Nat.leb 28 n && Nat.leb n 32))%bool.

Fixpoint lstrip (s : string) : string :=
  match s with
  | String c rest => if is_space c then lstrip rest else s
  | EmptyString => EmptyString
  end.

Fixpoint rstrip (s : string) : string :=
  match s with
  | EmptyString => EmptyString
  | String c rest =>
      match rstrip rest with
      | EmptyString => if is_space c then EmptyString else String c EmptyString
      | r => String c r
      end
  end.

(** [s.strip()]. *)
Definition strip (s : string) : string := rstrip (lstrip s).

(** [str(n)] for an int. *)
Definition str_of_int (n : Z) : string := NilZero.string_of_int (Z.to_int n).

(** The double-quote character, for the HTML snippets the page emits. *)
Definition dq : string := String (ascii_of_nat 34) EmptyString.

(** ** Equality of hashable values, as a dict compares its keys *)

(** Whether the float [x] is exactly the integer [m] ([1 == 1.0]). *)
Definition float_eq_int (x : float) (m : Z) : bool :=
  match Prim2SF x with
  | S754_zero _ => m =? 0
  | S754_finite sign mant e =>
      let v := if sign then Z.neg mant else Z.pos mant in
      if 0 <=? e then m =? v * 2 ^ e else m * 2 ^ (- e) =? v
  | _ => false
  end.

(** Python's [==] on the values a dict accepts as keys: numbers compare by
    value across [bool], [int] and [float]; [None] and strings only equal
    themselves.  (Lists and dicts are unhashable and never reach here.) *)
Definition key_eqb (a b : json) : bool :=
  let num v :=
    match v with
    | JBool c => Some (inl (if c then 1 else 0))
    | JInt n => Some (inl n)
    | JFloat x => Some (inr x)
    | _ => None
    end in
  match a, b with
  | JNull, JNull => true
  | JStr s, JStr t => String.eqb s t
  | _, _ =>
      match num a, num b with
      | Some (inl m), Some (inl n) => m =? n
      | Some (inr x), Some (inr y) => PrimFloat.eqb x y
      | Some (inl m), Some (inr x) | Some (inr x), Some (inl m) => float_eq_int x m
      | _, _ => false
      end
  end.

Definition hashable (v : json) : bool :=
  match v with JList _ | JDict _ => false | _ => true end.

(** [l[-n:]] for [n > 0]: the last [n] elements, or all of a shorter list. *)
Definition last_n {A : Type} (n : nat) (l : list A) : list A :=
  skipn (List.length l - n) l.

(* ================================================================== *)
(** * The runtime: backend, clock, environment, Python's formatters *)
(* ================================================================== *)

Inductive http_method : Type := GET | POST.

(** What [requests.get] / [requests.post] is called with.  A POST always
    carries the header [Content-Type: application/json]. *)
Record request : Type := {
  req_method : http_method;
  req_url : string;
  req_json : option json;
  req_timeout : Z
}.

(** What the call gives back: an exception (connection error, timeout, ...),
    or a response with its status code and what [r.json()] would return
    ([None] when the body is not JSON and [r.json()] raises). *)
Inductive outcome : Type :=
| TransportError
| Response (status_code : Z) (body : option json).

(** Everything outside the program.  The backend is stateful: a reply may
    depend on every request seen before.  [py_repr] is Python's text form of a
    float, list or dict and [json_dumps indent v] is [json.dumps(v, indent=..)]:
    library code that the program calls and never inspects. *)
Class Runtime : Type := {
  World : Type;
  http_send : request -> World -> outcome * World;
  time_time : World -> float * World;
  getenv : string -> option string;
  py_repr : json -> string;
  json_dumps : option Z -> json -> string
}.

Section Program.
Context {RT : Runtime}.

(** [str(v)], as an f-string formats [v]. *)
Definition py_str (v : json) : string :=
  match v with
  | JStr s => s
  | JInt n => str_of_int n
  | JBool true => "True"
  | JBool false => "False"
  | JNull => "None"
  | _ => py_repr v
  end.

(** The machine state: the outside world and the requests sent so far. *)
Record machine : Type := {
  world : World;
  sent : list request
}.

Definition M (A : Type) : Type := machine -> A * machine.

Definition ret {A : Type} (a : A) : M A := fun m => (a, m).

Definition bind {A B : Type} (c : M A) (k : A -> M B) : M B :=
  fun m => let (a, m') := c m in k a m'.

Notation "x <- c ;; k" := (bind c (fun x => k))
  (at level 61, c at next level, right associativity).

Definition send (req : request) : M outcome :=
  fun m =>
    let (o, w) := http_send req (world m) in
    (o, {| world := w; sent := sent m ++ [req] |}).

Definition clock : M float :=
  fun m =>
    let (t, w) := time_time (world m) in
    (t, {| world := w; sent := sent m |}).

(* ------------------------------------------------------------------ *)
(** ** HTTP client wrapper *)

Definition get_backend_base_url : string :=
  match getenv "FRONTEND_BACKEND_BASE_URL" with
  | Some v => v
  | None => "http://localhost:8000"
  end.

Definition url_of (path : string) : string :=
  rstrip_slash get_backend_base_url ++ "/" ++ lstrip_slash path.

Definition get_request (path : string) (timeout : Z) : request :=
  {| req_method := GET; req_url := url_of path;
     req_json := None; req_timeout := timeout |}.

Definition post_request (path : string) (json_body : json) (timeout : Z) : request :=
  {| req_method := POST; req_url := url_of path;
     req_json := Some json_body; req_timeout := timeout |}.

Definition _http_get (path : string) (timeout : Z) : M outcome :=
  send (get_request path timeout).

Definition _http_post (path : string) (json_body : json) (timeout : Z) : M outcome :=
  send (post_request path json_body timeout).

(** [discover_api]: [raise_for_status] raises on a 4xx or 5xx status; any
    exception yields the empty dict. *)
Definition discover_api : M json :=
  o <- _http_get "openapi.json" 20 ;;
  ret match o with
      | Response status (Some data) =>
          if ((400 <=? status) && (status <? 600))%bool then JDict [] else data
      | _ => JDict []
      end.

(* ------------------------------------------------------------------ *)
(** ** Candidate ordering from the OpenAPI document *)

(** ["get" in v]: key membership in a dict, element membership in a list,
    substring of a string; a [TypeError] ([None]) for anything else. *)
Definition has_get (v : json) : option bool :=
  match v with
  | JDict d => Some (dict_has "get" d)
  | JList l =>
      Some (existsb (fun e => match e with JStr s => String.eqb s "get" | _ => false end) l)
  | JStr s => Some (contains "get" s)
  | _ => None
  end.

(** Lines 65-66: [if p not in candidates: candidates.insert(0, p)]. *)
Definition visit (p : string) (candidates : list string) : list string :=
  if in_list p candidates then candidates else p :: candidates.

(** The loop over [paths.keys()] inside the [try].  [candidates] is mutated
    in place, so the insertions made before an exception stay; the boolean
    tells whether an exception ended the loop. *)
Fixpoint scan_paths (paths : list (string * json)) (keys : list string)
    (candidates : list string) : list string * bool :=
  match keys with
  | [] => (candidates, false)
  | p :: rest =>
      if contains "agent" (lower p) then
        match dict_lookup p paths with
        | None => (candidates, true)
        | Some item =>
            match has_get item with
            | None => (candidates, true)
            | Some true =>
                scan_paths paths rest (visit p candidates)
            | Some false => scan_paths paths rest candidates
            end
        end
      else scan_paths paths rest candidates
  end.

Definition fixed_candidates : list string := ["/agents"; "/api/agents"].

(** Line 62: [api.get("paths", {}) if isinstance(api, dict) else {}]. *)
Definition path_table (api : json) : json :=
  match api with
  | JDict d => match dict_lookup "paths" d with Some v => v | None => JDict [] end
  | _ => JDict []
  end.

(** Lines 59-68 of [fetch_agents]: the candidate list after the [try], and
    whether the [except] was taken ([paths.keys()] itself raises when the
    path table is not a dict). *)
Definition probe_order (api : json) : list string * bool :=
  let candidates := fixed_candidates in
  let paths := path_table api in
  match paths with
  | JDict table => scan_paths table (map fst table) candidates
  | _ => (candidates, true)
  end.

Definition agent_candidates (api : json) : list string := fst (probe_order api).

(* ------------------------------------------------------------------ *)
(** ** Probing *)

(** [for path in candidates: try: ... return ... except: continue]: the first
    candidate whose attempt returns ends the loop. *)
Fixpoint first_ok {A : Type} (attempt : string -> M (option A))
    (candidates : list string) : M (option A) :=
  match candidates with
  | [] => ret None
  | path :: rest =>
      r <- attempt path ;;
      match r with
      | Some a => ret (Some a)
      | None => first_ok attempt rest
      end
  end.

(** The body shared by the GET loops: status 200, then a list, or a dict
    whose [key] entry is a list. *)
Definition list_payload (key : string) (o : outcome) : option (list json) :=
  match o with
  | Response status body =>
      if status =? 200 then
        match body with
        | Some (JList l) => Some l
        | Some (JDict d) =>
            match dict_lookup key d with
            | Some (JList l) => Some l
            | _ => None
            end
        | _ => None
        end
      else None
  | TransportError => None
  end.

(** The body of the POST loops: status 200 or 201, then whatever [r.json()]
    returns. *)
Definition any_payload (o : outcome) : option json :=
  match o with
  | Response status body =>
      if ((status =? 200) || (status =? 201))%bool then body else None
  | TransportError => None
  end.

Definition fetch_agents (api : json) : M (list json) :=
  let candidates := agent_candidates api in
  r <- first_ok (fun path => o <- _http_get path 20 ;; ret (list_payload "agents" o))
         candidates ;;
  ret match r with Some data => data | None => [] end.

Definition error_payload : json :=
  JDict [("error", JStr "Unable to submit query to backend. Please verify API endpoints.")].

Definition submit_query (agent_id : json) (query : string) : M json :=
  let payload :=
    if truthy agent_id
    then JDict [("query", JStr query); ("agent_id", agent_id)]
    else JDict [("query", JStr query)] in
  let post_candidates := ["/query"; "/api/query"] in
  r <- first_ok (fun path => o <- _http_post path payload 120 ;; ret (any_payload o))
         post_candidates ;;
  match r with
  | Some data => ret data
  | None =>
      if truthy agent_id then
        let scoped_candidates :=
          ["/agents/" ++ py_str agent_id ++ "/query";
           "/api/agents/" ++ py_str agent_id ++ "/query"] in
        r <- first_ok
               (fun path =>
                  o <- _http_post path (JDict [("query", JStr query)]) 120 ;;
                  ret (any_payload o))
               scoped_candidates ;;
        match r with
        | Some data => ret data
        | None => ret error_payload
        end
      else ret error_payload
  end.

Definition fetch_history (agent_id : json) : M (list json) :=
  let get_candidates := ["/history"; "/api/history"] in
  r <- first_ok (fun path => o <- _http_get path 30 ;; ret (list_payload "history" o))
         get_candidates ;;
  match r with
  | Some data => ret data
  | None =>
      if truthy agent_id then
        let scoped_candidates :=
          ["/agents/" ++ py_str agent_id ++ "/history";
           "/api/agents/" ++ py_str agent_id ++ "/history"] in
        r <- first_ok
               (fun path => o <- _http_get path 30 ;; ret (list_payload "history" o))
               scoped_candidates ;;
        match r with
        | Some data => ret data
        | None => ret []
        end
      else ret []
  end.

(* ------------------------------------------------------------------ *)
(** ** Response renderer *)

(** The Streamlit calls [_render_response] makes, in order. *)
Inductive ui_cmd : Type :=
| StWarning (s : string)
| StMarkdown (s : string) (unsafe_allow_html : bool)
| StWrite (s : string)
| StJson (v : json)
| StExpander (label : string) (inside : list ui_cmd).

Definition card_open : string := "<div class=" ++ dq ++ "ocean-card" ++ dq ++ ">".
Definition card_close : string := "</div>".

Definition text_keys : list string :=
  ["answer"; "response"; "output"; "result"; "content"; "text"].

(** The search for the primary text: the first key of [keys] that is in the
    dict with a [str] value. *)
Fixpoint find_text (keys : list string) (resp : list (string * json)) : option string :=
  match keys with
  | [] => None
  | k :: rest =>
      match dict_lookup k resp with
      | Some (JStr s) => Some s
      | _ => find_text rest resp
      end
  end.

(** One entry of the references list. *)
Definition render_reference (r : json) : ui_cmd :=
  match r with
  | JDict d =>
      let label := py_or (py_or (dict_get "title" d) (dict_get "id" d)) (JStr "Source") in
      let url := dict_get "url" d in
      if truthy url
      then StMarkdown ("- [" ++ py_str label ++ "](" ++ py_str url ++ ")") false
      else StMarkdown ("- " ++ json_dumps (Some 2) r) false
  | _ => StMarkdown ("- " ++ py_str r) false
  end.

(** The [isinstance(resp, dict)] branch. *)
Definition render_dict (resp : list (string * json)) : list ui_cmd :=
  let text := find_text text_keys resp in
  let refs :=
    py_or (py_or (dict_get "references" resp) (dict_get "citations" resp))
      (dict_get "sources" resp) in
  match text with
  | Some (String c s) =>
      [StMarkdown card_open true; StMarkdown (String c s) false; StMarkdown card_close true]
  | _ => []
  end
  ++ match refs with
     | JList (r :: rs) => StMarkdown "##### References" false :: map render_reference (r :: rs)
     | _ => []
     end
  ++ [StExpander "Raw JSON" [StJson (JDict resp)]].

Fixpoint _render_response (resp : json) : list ui_cmd :=
  match resp with
  | JNull => [StWarning "Empty response."]
  | JDict d => render_dict d
  | JList l =>
      (fix items (l : list json) (i : Z) {struct l} : list ui_cmd :=
         match l with
         | [] => []
         | it :: rest =>
             StMarkdown ("**Item " ++ str_of_int i ++ "**") false
               :: _render_response it ++ items rest (i + 1)
         end) l 1
  | _ => [StWrite (py_str resp)]
  end.

(* ------------------------------------------------------------------ *)
(** ** Session state *)

(** [st.session_state].  The four keys are created together by
    [_init_session_state] and never deleted, so a session has either none of
    them (a new session, [None] below) or all of them. *)
Record session_state : Type := {
  selected_agent_id : json;
  history : list json;
  api_discovery : json;
  agents : list json
}.

Definition _init_session_state (stored : option session_state) : session_state :=
  match stored with
  | Some s => s
  | None =>
      {| selected_agent_id := JNull; history := []; api_discovery := JDict []; agents := [] |}
  end.

Definition set_selected_agent_id (v : json) (s : session_state) : session_state :=
  {| selected_agent_id := v; history := history s;
     api_discovery := api_discovery s; agents := agents s |}.

Definition set_history (h : list json) (s : session_state) : session_state :=
  {| selected_agent_id := selected_agent_id s; history := h;
     api_discovery := api_discovery s; agents := agents s |}.

Definition set_api_discovery (v : json) (s : session_state) : session_state :=
  {| selected_agent_id := selected_agent_id s; history := history s;
     api_discovery := v; agents := agents s |}.

Definition set_agents (l : list json) (s : session_state) : session_state :=
  {| selected_agent_id := selected_agent_id s; history := history s;
     api_discovery := api_discovery s; agents := l |}.

(** What the user did in the page for one run of the script. *)
Record ui_input : Type := {
  refresh_clicked : bool;
  agent_choice : nat;       (* position chosen in the "Select Agent" box *)
  load_history_clicked : bool;
  form_submitted : bool;
  prompt : string
}.

(* ------------------------------------------------------------------ *)
(** ** Sidebar *)

(** Line 269: the label shown for an agent. *)
Definition agent_label (a : json) : json :=
  match a with
  | JDict d =>
      py_or (py_or (py_or (dict_get "name" d) (dict_get "id" d)) (dict_get "label" d))
        (JStr (json_dumps None a))
  | _ => JStr (py_str a)
  end.

(** Line 270: the identity kept for an agent. *)
Definition agent_identity (a : json) : json :=
  match a with
  | JDict d => py_or (py_or (dict_get "id" d) (dict_get "agent_id" d)) (dict_get "name" d)
  | _ => JStr (py_str a)
  end.

(** [id_by_label[k] = v] and [id_by_label.get(k)]: a dict keyed by labels.
    (A NaN label, which Python would find again by object identity only, is
    outside this model.) *)
Fixpoint label_set (k v : json) (d : list (json * json)) : list (json * json) :=
  match d with
  | [] => [(k, v)]
  | (k', v') :: rest =>
      if key_eqb k' k then (k', v) :: rest else (k', v') :: label_set k v rest
  end.

Fixpoint label_get (k : json) (d : list (json * json)) : json :=
  match d with
  | [] => JNull
  | (k', v') :: rest => if key_eqb k' k then v' else label_get k rest
  end.

(** The loop of lines 266-275; [None] is the [TypeError] of an unhashable
    label used as a key. *)
Fixpoint index_agents (l : list json) (agent_names : list json)
    (id_by_label : list (json * json)) : option (list json * list (json * json)) :=
  match l with
  | [] => Some (agent_names, id_by_label)
  | a :: rest =>
      let label := agent_label a in
      let aid := agent_identity a in
      if hashable label
      then index_agents rest (agent_names ++ [label]) (label_set label aid id_by_label)
      else None
  end.

Definition none_option : json := JStr "(None)".

(** Line 279, given the option the select box returned. *)
Definition selection (selected_label : json) (id_by_label : list (json * json)) : json :=
  match selected_label with
  | JStr s => if String.eqb s "(None)" then JNull else label_get selected_label id_by_label
  | _ => label_get selected_label id_by_label
  end.

(** Line 294: one line of the sidebar's history list; [None] when the item
    has no [get] or its query cannot be sliced. *)
Definition history_line (item : json) : option string :=
  match item with
  | JDict d =>
      match dict_get "query" d with
      | JStr q =>
          Some ("- " ++ substring 0 40 q
                ++ if Nat.ltb 40 (String.length q) then "..." else "")
      | JList l =>
          Some ("- " ++ py_str (JList (firstn 40 l))
                ++ if Nat.ltb 40 (List.length l) then "..." else "")
      | _ => None
      end
  | _ => None
  end.

(** Lines 291-296: what the sidebar lists, newest first. *)
Definition sidebar_history (h : list json) : list (option string) :=
  map history_line (rev (last_n 10 h)).


(** Lines 257-260: the "Refresh API & Agents" button. *)
Definition refresh_block (u : ui_input) (s : session_state) : M session_state :=
  if refresh_clicked u then
    api <- discover_api ;;
    let s := set_api_discovery api s in
    found <- fetch_agents (api_discovery s) ;;
    ret (set_agents found s)
  else ret s.

(** Lines 277-281: the "Select Agent" box, shown when there are agents. *)
Definition select_block (u : ui_input) (agent_names : list json)
    (id_by_label : list (json * json)) (s : session_state) : session_state :=
  match agent_names with
  | [] => s
  | _ =>
      let selected_label := nth (agent_choice u) (none_option :: agent_names) none_option in
      set_selected_agent_id (selection selected_label id_by_label) s
  end.

(** Lines 288-289: the "Load History" button. *)
Definition load_history_block (u : ui_input) (s : session_state) : M session_state :=
  if load_history_clicked u then
    h <- fetch_history (selected_agent_id s) ;;
    ret (set_history h s)
  else ret s.

(** Whether the loop of lines 291-294 runs to its end. *)
Definition history_listed (h : list json) : bool :=
  forallb (fun line => match line with Some _ => true | None => false end)
    (sidebar_history h).

(** [_sidebar_ui]: the new session state, and whether the function ran to its
    end ([false]: an exception stopped the script run there). *)
Definition _sidebar_ui (u : ui_input) (s : session_state) : M (session_state * bool) :=
  s <- refresh_block u s ;;
  match index_agents (agents s) [] [] with
  | None => ret (s, false)
  | Some (agent_names, id_by_label) =>
      let s := select_block u agent_names id_by_label s in
      s <- load_history_block u s ;;
      ret (s, history_listed (history s))
  end.

(* ------------------------------------------------------------------ *)
(** ** Main panel and script run *)

Definition interaction (agent_id : json) (query : string) (resp : json)
    (timestamp latency : float) : json :=
  JDict [("agent_id", agent_id); ("query", JStr query); ("response", resp);
         ("timestamp", JFloat timestamp); ("latency", JFloat latency)].

(** [_main_panel], up to its last write to the session state (line 335); what
    follows only draws the page. *)
Definition _main_panel (u : ui_input) (s : session_state) : M session_state :=
  if form_submitted u then
    if (String.eqb (prompt u) "" || String.eqb (strip (prompt u)) "")%bool then ret s
    else
      start <- clock ;;
      resp <- submit_query (selected_agent_id s) (strip (prompt u)) ;;
      stop <- clock ;;
      let latency := PrimFloat.sub stop start in
      timestamp <- clock ;;
      ret (set_history
             (history s
              ++ [interaction (selected_agent_id s) (strip (prompt u)) resp timestamp latency])
             s)
  else ret s.

(** One run of the script for a user action. *)
Definition main (u : ui_input) (stored : option session_state) : M (session_state * bool) :=
  let s := _init_session_state stored in
  s <- (if negb (truthy (api_discovery s)) then
          api <- discover_api ;; ret (set_api_discovery api s)
        else ret s) ;;
  s <- (match agents s with
        | [] => found <- fetch_agents (api_discovery s) ;; ret (set_agents found s)
        | _ => ret s
        end) ;;
  r <- _sidebar_ui u s ;;
  let (s, ran) := r in
  if ran then s <- _main_panel u s ;; ret (s, true) else ret (s, false).

(* ------------------------------------------------------------------ *)
(** ** Vocabulary for the properties *)

(** The replies the backend gives when [reqs] are sent one after the other
    from the world [w], and the world they leave. *)
Fixpoint replies (reqs : list request) (w : World) : list outcome :=
  match reqs with
  | [] => []
  | r :: rest => let (o, w') := http_send r w in o :: replies rest w'
  end.

Fixpoint world_after (reqs : list request) (w : World) : World :=
  match reqs with
  | [] => w
  | r :: rest => world_after rest (snd (http_send r w))
  end.

(** A prober over requests: send each in turn, stop at the first accepted
    reply.  The three probing functions are compared with it below. *)
Fixpoint probe {A : Type} (accept : outcome -> option A) (reqs : list request)
    : M (option A) :=
  match reqs with
  | [] => ret None
  | r :: rest =>
      o <- send r ;;
      match accept o with
      | Some a => ret (Some a)
      | None => probe accept rest
      end
  end.

(** A call of one of the three probing functions. *)
Inductive prober : Type :=
| FetchAgents (api : json)
| FetchHistory (agent_id : json)
| SubmitQuery (agent_id : json) (query : string).

(** The call itself; a returned Python list is the JSON list. *)
Definition call (c : prober) : M json :=
  match c with
  | FetchAgents api => l <- fetch_agents api ;; ret (JList l)
  | FetchHistory agent_id => l <- fetch_history agent_id ;; ret (JList l)
  | SubmitQuery agent_id query => submit_query agent_id query
  end.

(** The ordered candidate list of a call, as the requests it stands for. *)
Definition candidate_requests (c : prober) : list request :=
  match c with
  | FetchAgents api => map (fun path => get_request path 20) (agent_candidates api)
  | FetchHistory agent_id =>
      map (fun path => get_request path 30)
        (["/history"; "/api/history"]
         ++ if truthy agent_id
            then ["/agents/" ++ py_str agent_id ++ "/history";
                  "/api/agents/" ++ py_str agent_id ++ "/history"]
            else [])
  | SubmitQuery agent_id query =>
      map (fun path =>
             post_request path
               (if truthy agent_id
                then JDict [("query", JStr query); ("agent_id", agent_id)]
                else JDict [("query", JStr query)]) 120)
        ["/query"; "/api/query"]
      ++ (if truthy agent_id
          then map (fun path => post_request path (JDict [("query", JStr query)]) 120)
                 ["/agents/" ++ py_str agent_id ++ "/query";
                  "/api/agents/" ++ py_str agent_id ++ "/query"]
          else [])
  end.

(** The payload a call takes from a reply: [None] for a transport error, an
    unaccepted status code or a body of the wrong shape. *)
Definition parsed_payload (c : prober) (o : outcome) : option json :=
  match c with
  | FetchAgents _ => option_map JList (list_payload "agents" o)
  | FetchHistory _ => option_map JList (list_payload "history" o)
  | SubmitQuery _ _ => any_payload o
  end.

(** The [n]-th candidate is the first whose reply is accepted, with payload [v]. *)
Definition first_success (c : prober) (w : World) (n : nat) (v : json) : Prop :=
  (forall i o, (i < n)%nat ->
     nth_error (replies (candidate_requests c) w) i = Some o -> parsed_payload c o = None)
  /\ exists o, nth_error (replies (candidate_requests c) w) n = Some o
               /\ parsed_payload c o = Some v.

(** No candidate's reply is accepted. *)
Definition no_success (c : prober) (w : World) : Prop :=
  Forall (fun o => parsed_payload c o = None) (replies (candidate_requests c) w).

End Program.

(* ================================================================== *)
(** * Sample runtimes and documents *)
(* ================================================================== *)

(** A backend that answers the requests it receives with a fixed script of
    replies, in order, and refuses the connection once the script is over. *)
Definition scripted : Runtime := {|
  World := list outcome;
  http_send := fun _ w => match w with [] => (TransportError, []) | o :: rest => (o, rest) end;
  time_time := fun w => (0%float, w);
  getenv := fun _ => None;
  py_repr := fun _ => "<repr>";
  json_dumps := fun _ _ => "<json>"
|}.

Definition boot (script : list outcome) : @machine scripted :=
  @Build_machine scripted script [].

(** A document whose first path entry is not an object. *)
Definition bad_first_paths : list (string * json) :=
  [("/agent-x", JInt 5); ("/v1/agents", JDict [("get", JDict [])])].

Definition doc_bad_first : json := JDict [("paths", JDict bad_first_paths)].

(** A document whose second path entry is not an object. *)
Definition doc_bad_second : json :=
  JDict [("paths", JDict [("/v1/agents", JDict [("get", JDict [])]);
                          ("/agent-x", JInt 5)])].

(** A well-formed document with two agent paths, one of them POST only. *)
Definition doc_good : json :=
  JDict [("openapi", JStr "3.1.0");
         ("paths", JDict [("/health", JDict [("get", JDict [])]);
                          ("/v1/Agents", JDict [("get", JDict [])]);
                          ("/v1/agents/run", JDict [("post", JDict [])]);
                          ("/agents", JDict [("get", JDict [])])])].





(** A session with one agent and one interaction in its log. *)
Definition session_one : session_state := {|
  selected_agent_id := JNull;
  history := [interaction JNull "hello" (JDict [("answer", JStr "hi")]) 0%float 0%float];
  api_discovery := doc_good;
  agents := [JDict [("id", JStr "a1"); ("name", JStr "Alpha")]]
|}.


(** The first agent chosen and a prompt submitted. *)
Definition choose_and_submit : ui_input := {|
  refresh_clicked := false; agent_choice := 1%nat;
  load_history_clicked := false; form_submitted := true; prompt := " ping "
|}.



(** Replies: a refused connection, a 200 whose body has the wrong shape, then
    a 200 that lists one agent. *)
Definition script_third_lists : list outcome :=
  [TransportError;
   Response 200 (Some (JDict [("detail", JStr "nothing here")]));
   Response 200 (Some (JDict [("agents", JList [JStr "a1"])]))].

(** Replies: a 500, then a 201 whose body is a JSON list. *)
Definition script_second_created : list outcome :=
  [Response 500 None; Response 201 (Some (JList [JInt 1; JStr "x"]))].

Definition answer_with_sources : json :=
  JDict [("answer", JStr "X");
         ("sources", JList [JDict [("title", JStr "T"); ("url", JStr "U")]])].

Definition mixed_list : json :=
  JList [JInt 1; JStr "two"; JDict [("content", JStr "three")]].

(* ------------------------------------------------------------------ *)
(** ** Further vocabulary *)

(** The worlds that can follow [w]: after any number of requests and clock
    readings. *)
Inductive later {RT : Runtime} (w : World) : World -> Prop :=
| later_now : later w w
| later_send (w' : World) (req : request) :
    later w w' -> later w (snd (http_send req w'))
| later_tick (w' : World) : later w w' -> later w (snd (time_time w')).

(** The backend is down from [w] on: every request, now or later, fails with
    a transport error. *)
Definition down {RT : Runtime} (w : World) : Prop :=
  forall w' req, later w w' -> fst (http_send req w') = TransportError.

(** Line 294 does not raise on the item. *)
Definition listable {RT : Runtime} (item : json) : bool :=
  match history_line item with Some _ => true | None => false end.

(** The test of line 64 on a key of the path table: an agent path whose
    entry has ["get"] in it. *)
Definition qualifies (table : list (string * json)) (p : string) : bool :=
  (contains "agent" (lower p)
   && match dict_lookup p table with
      | Some item => match has_get item with Some true => true | _ => false end
      | None => false
      end)%bool.

(** [n] slashes. *)
Fixpoint slashes (n : nat) : string :=
  match n with
  | O => ""
  | S k => String slash (slashes k)
  end.


(** The machine [m'] has sent what [m] had sent, and possibly more after it. *)
Definition sent_extends {RT : Runtime} (m m' : machine) : Prop :=
  exists more, sent m' = (sent m ++ more)%list.

(** The failure value of a probing call. *)
Definition when_exhausted (c : prober) : json :=
  match c with
  | SubmitQuery _ _ => error_payload
  | _ => JList []
  end.

(** A path table with no agent path, and entries that are not objects. *)
Definition doc_no_agent_paths : json :=
  JDict [("paths", JDict [("/health", JInt 5); ("/users", JNull)])].

(** A path table with three agent paths that declare GET. *)
Definition three_agent_paths : list (string * json) :=
  [("/a/agents", JDict [("get", JDict [])]);
   ("/status", JDict [("get", JDict [])]);
   ("/b/agents", JDict [("get", JDict [])]);
   ("/agents", JDict [("get", JDict [])]);
   ("/c/Agent", JStr "get only")].

Definition doc_three_agents : json := JDict [("paths", JDict three_agent_paths)].

(** Two agents that share the name "Alpha", and a third one. *)
Definition twin_agents : list json :=
  [JDict [("id", JStr "a1"); ("name", JStr "Alpha")];
   JDict [("id", JStr "b7"); ("name", JStr "Beta")];
   JDict [("id", JStr "a2"); ("name", JStr "Alpha")]].

Definition session_twins : session_state := {|
  selected_agent_id := JStr "old"; history := [];
  api_discovery := doc_good; agents := twin_agents
|}.


(** A session that knows no agent but remembers a selection. *)
Definition session_no_agents : session_state := {|
  selected_agent_id := JStr "a1"; history := [];
  api_discovery := doc_good; agents := []
|}.

(** A response whose first text key holds an empty string. *)
Definition empty_answer : list (string * json) :=
  [("answer", JInt 5); ("response", JStr ""); ("text", JStr "later")].

(** A response whose [references] is a string. *)
Definition text_references : list (string * json) :=
  [("references", JStr "see the docs"); ("sources", JList [JDict [("url", JStr "U")]])].



(** No click, nothing submitted. *)
Definition idle : ui_input := {|
  refresh_clicked := false; agent_choice := 0%nat;
  load_history_clicked := false; form_submitted := false; prompt := ""
|}.

(** The third option of the select box, nothing else. *)
Definition choose_third : ui_input := {|
  refresh_clicked := false; agent_choice := 3%nat;
  load_history_clicked := false; form_submitted := false; prompt := ""
|}.

(** A click on "Refresh API & Agents". *)
Definition click_refresh : ui_input := {|
  refresh_clicked := true; agent_choice := 0%nat;
  load_history_clicked := false; form_submitted := false; prompt := ""
|}.


(* ================================================================== *)
(** * Properties *)
(* ================================================================== *)

(** ** The model on small inputs *)

Example lower_contains_agent :
  contains "agent" (lower "/V1/AGENTS/list") = true
  /\ contains "agent" (lower "/v1/users") = false
  /\ contains "" "" = true.
Proof. repeat split. Qed.

Example strip_slashes :
  rstrip_slash "http://host:8000//" = "http://host:8000"
  /\ lstrip_slash "//agents/" = "agents/"
  /\ strip "  ask me  " = "ask me".
Proof. repeat split. Qed.

Example url_of_default_base :
  @url_of scripted "/api/agents" = "http://localhost:8000/api/agents"
  /\ @url_of scripted "openapi.json" = "http://localhost:8000/openapi.json".
Proof. split; reflexivity. Qed.

Example str_of_int_values :
  str_of_int 0 = "0" /\ str_of_int 42 = "42" /\ str_of_int (-7) = "-7".
Proof. repeat split. Qed.

Example truthy_values :
  map truthy [JNull; JBool false; JInt 0; JFloat 0%float; JStr ""; JList []; JDict [];
              JInt 3; JStr "0"; JList [JNull]]
  = [false; false; false; false; false; false; false; true; true; true].
Proof. reflexivity. Qed.

Example key_eqb_numbers :
  key_eqb (JBool true) (JInt 1) = true
  /\ key_eqb (JInt 1) (JFloat 1%float) = true
  /\ key_eqb (JInt 1) (JFloat 1.5%float) = false
  /\ key_eqb (JStr "1") (JInt 1) = false.
Proof. repeat split. Qed.

Example has_get_values :
  @has_get (JDict [("post", JNull); ("get", JNull)]) = Some true
  /\ has_get (JList [JStr "put"]) = Some false
  /\ has_get (JStr "target") = Some true
  /\ has_get (JInt 5) = None
  /\ has_get JNull = None.
Proof. repeat split. Qed.

Example probe_order_samples :
  probe_order doc_good = (["/v1/Agents"; "/agents"; "/api/agents"], false)
  /\ probe_order (JList []) = (fixed_candidates, false)
  /\ probe_order (JDict [("paths", JNull)]) = (fixed_candidates, true).
Proof. repeat split. Qed.

Example last_n_values :
  last_n 2 [1; 2; 3] = [2; 3] /\ last_n 5 [1; 2; 3] = [1; 2; 3].
Proof. split; reflexivity. Qed.

(** A submission with the agent [a1] against a backend that refuses every
    connection: the four candidates are tried in order. *)
Example submit_query_all_refused :
  fst (@submit_query scripted (JStr "a1") "hi" (boot [])) = error_payload
  /\ map req_url (sent (snd (@submit_query scripted (JStr "a1") "hi" (boot []))))
     = ["http://localhost:8000/query"; "http://localhost:8000/api/query";
        "http://localhost:8000/agents/a1/query";
        "http://localhost:8000/api/agents/a1/query"].
Proof. split; reflexivity. Qed.

Section ProbeFacts.
Context {RT : Runtime}.

(** A loop over paths is the prober over the requests those paths stand for. *)
Lemma first_ok_probe {A : Type} (accept : outcome -> option A) (mk : string -> request)
    (candidates : list string) (m : machine) :
  first_ok (fun path => bind (send (mk path)) (fun o => ret (accept o))) candidates m
  = probe accept (map mk candidates) m.
Proof.
  revert m. induction candidates as [|p rest IH]; intros m; [reflexivity|].
  cbn [first_ok probe map]. unfold bind, send, ret.
  destruct (http_send (mk p) (world m)) as [o w].
  destruct (accept o); [reflexivity|]. apply IH.
Qed.

Lemma probe_app {A : Type} (accept : outcome -> option A) (l1 l2 : list request)
    (m : machine) :
  probe accept (l1 ++ l2) m
  = match probe accept l1 m with
    | (Some a, m') => (Some a, m')
    | (None, m') => probe accept l2 m'
    end.
Proof.
  revert m. induction l1 as [|r rest IH]; intros m; [reflexivity|].
  cbn [probe app]. unfold bind, send.
  destruct (http_send r (world m)) as [o w].
  destruct (accept o); [reflexivity|]. apply IH.
Qed.

Lemma probe_option_map {A B : Type} (f : A -> B) (accept : outcome -> option A)
    (reqs : list request) (m : machine) :
  probe (fun o => option_map f (accept o)) reqs m
  = (option_map f (fst (probe accept reqs m)), snd (probe accept reqs m)).
Proof.
  revert m. induction reqs as [|r rest IH]; intros m; [reflexivity|].
  cbn [probe]. unfold bind, send.
  destruct (http_send r (world m)) as [o w].
  destruct (accept o); [reflexivity|]. apply IH.
Qed.

(** The first accepted reply decides the result; the requests before it were
    each sent once, in order, and nothing after it was sent. *)
Lemma probe_first_success {A : Type} (accept : outcome -> option A)
    (reqs : list request) (m : machine) (n : nat) (v : A) :
  (forall i o, (i < n)%nat ->
     nth_error (replies reqs (world m)) i = Some o -> accept o = None) ->
  (exists o, nth_error (replies reqs (world m)) n = Some o /\ accept o = Some v) ->
  probe accept reqs m
  = (Some v, {| world := world_after (firstn (S n) reqs) (world m);
                sent := sent m ++ firstn (S n) reqs |}).
Proof.
  revert m n. induction reqs as [|r rest IH]; intros m n Hbefore [o [Hn Hv]].
  - destruct n; discriminate Hn.
  - cbn [replies] in Hbefore, Hn. cbn [probe firstn world_after].
    unfold bind, send.
    destruct (http_send r (world m)) as [o0 w] eqn:E. cbn [snd].
    destruct n as [|n].
    + cbn in Hn. injection Hn as ->. rewrite Hv. reflexivity.
    + rewrite (Hbefore 0%nat o0) by (try lia; reflexivity).
      rewrite (IH {| world := w; sent := sent m ++ [r] |} n).
      * cbn [world sent]. rewrite <- app_assoc. reflexivity.
      * intros i o' Hi Ho'. apply (Hbefore (S i) o'); [lia | exact Ho'].
      * exists o. split; [exact Hn | exact Hv].
Qed.

(** When no reply is accepted every candidate is sent and nothing is found. *)
Lemma probe_no_success {A : Type} (accept : outcome -> option A)
    (reqs : list request) (m : machine) :
  Forall (fun o => accept o = None) (replies reqs (world m)) ->
  probe accept reqs m
  = (None, {| world := world_after reqs (world m); sent := sent m ++ reqs |}).
Proof.
  revert m. induction reqs as [|r rest IH]; intros m Hall.
  - cbn. rewrite app_nil_r. destruct m; reflexivity.
  - cbn [replies] in Hall. cbn [probe world_after]. unfold bind, send.
    destruct (http_send r (world m)) as [o w]. cbn [snd].
    inversion Hall as [|? ? Ho Hrest]; subst. rewrite Ho.
    rewrite (IH {| world := w; sent := sent m ++ [r] |} Hrest).
    cbn [world sent]. rewrite <- app_assoc. reflexivity.
Qed.

(** Whatever the backend does, the requests sent are a prefix of the
    candidate list, in its order. *)
Lemma probe_sent_prefix {A : Type} (accept : outcome -> option A)
    (reqs : list request) (m : machine) :
  exists k, sent (snd (probe accept reqs m)) = (sent m ++ firstn k reqs)%list.
Proof.
  revert m. induction reqs as [|r rest IH]; intros m.
  - exists 0%nat. cbn. now rewrite app_nil_r.
  - cbn [probe]. unfold bind, send.
    destruct (http_send r (world m)) as [o w].
    destruct (accept o).
    + exists 1%nat. reflexivity.
    + destruct (IH {| world := w; sent := sent m ++ [r] |}) as [k Hk].
      exists (S k). rewrite Hk. cbn [sent firstn]. now rewrite <- app_assoc.
Qed.

(** The three probing functions are the prober over their candidate list;
    only the value returned when nothing is found differs. *)
Lemma call_probe (c : prober) (m : machine) :
  call c m
  = (match fst (probe (parsed_payload c) (candidate_requests c) m) with
     | Some v => v
     | None => match c with SubmitQuery _ _ => error_payload | _ => JList [] end
     end,
     snd (probe (parsed_payload c) (candidate_requests c) m)).
Proof.
  destruct c as [api | agent_id | agent_id query];
    cbn [call candidate_requests]; unfold parsed_payload.
  - rewrite probe_option_map. cbn [fst snd].
    unfold fetch_agents, bind at 1 2, _http_get.
    rewrite (first_ok_probe (list_payload "agents") (fun path => get_request path 20)).
    destruct (probe _ _ m) as [[l|] m']; reflexivity.
  - rewrite probe_option_map. cbn [fst snd]. rewrite map_app, probe_app.
    unfold fetch_history, bind at 1 2, _http_get.
    rewrite (first_ok_probe (list_payload "history") (fun path => get_request path 30)).
    destruct (probe _ _ m) as [[l|] m']; [reflexivity|].
    destruct (truthy agent_id).
    + unfold bind at 1.
      rewrite (first_ok_probe (list_payload "history") (fun path => get_request path 30)).
      destruct (probe _ _ m') as [[l|] m'']; reflexivity.
    + reflexivity.
  - rewrite probe_app.
    unfold submit_query, bind at 1, _http_post.
    rewrite (first_ok_probe any_payload
               (fun path => post_request path
                  (if truthy agent_id
                   then JDict [("query", JStr query); ("agent_id", agent_id)]
                   else JDict [("query", JStr query)]) 120)).
    destruct (probe _ _ m) as [[v|] m']; [reflexivity|].
    destruct (truthy agent_id).
    + unfold bind at 1.
      rewrite (first_ok_probe any_payload
                 (fun path => post_request path (JDict [("query", JStr query)]) 120)).
      destruct (probe _ _ m') as [[v|] m'']; reflexivity.
    + reflexivity.
Qed.

End ProbeFacts.

Section ProbingClaims.
Context {RT : Runtime}.

(** C1. For each of the probing functions ([fetch_agents], [fetch_history],
    [submit_query]) and its ordered candidate list: when the replies to the
    candidates before the [n]-th are all failures (transport error, unaccepted
    status code, body of the wrong shape) and the [n]-th reply is accepted
    with parsed payload [v], the function returns [v]; the earlier candidates
    were each tried once, in order, and skipped without an error, and nothing
    after the [n]-th was sent. *)
Theorem probing_returns_first_success (c : prober) (m : machine) (n : nat) (v : json) :
  first_success c (world m) n v ->
  match c with
  | FetchAgents api => JList (fst (fetch_agents api m)) = v
  | FetchHistory agent_id => JList (fst (fetch_history agent_id m)) = v
  | SubmitQuery agent_id query => fst (submit_query agent_id query m) = v
  end
  /\ sent (snd (call c m)) = (sent m ++ firstn (S n) (candidate_requests c))%list.
Proof.
  intros [Hbefore Hnth].
  pose proof (call_probe c m) as Hcall.
  rewrite (probe_first_success (parsed_payload c) (candidate_requests c) m n v Hbefore Hnth)
    in Hcall.
  cbn [fst snd] in Hcall. split.
  - destruct c; cbn [call] in Hcall; unfold bind, ret in Hcall.
    + destruct (fetch_agents api m); cbn [fst]. congruence.
    + destruct (fetch_history agent_id m); cbn [fst]. congruence.
    + rewrite Hcall. reflexivity.
  - rewrite Hcall. reflexivity.
Qed.

(** C2. When no candidate's reply is accepted, [fetch_agents] and
    [fetch_history] return the empty list and [submit_query] returns a dict
    that has the key [error]. *)
Theorem probing_exhausted (c : prober) (m : machine) :
  no_success c (world m) ->
  match c with
  | FetchAgents api => fst (fetch_agents api m) = []
  | FetchHistory agent_id => fst (fetch_history agent_id m) = []
  | SubmitQuery agent_id query =>
      exists d, fst (submit_query agent_id query m) = JDict d /\ dict_has "error" d = true
  end.
Proof.
  intros Hnone.
  pose proof (call_probe c m) as Hcall.
  rewrite (probe_no_success (parsed_payload c) (candidate_requests c) m Hnone) in Hcall.
  cbn [fst snd] in Hcall.
  destruct c; cbn [call] in Hcall; unfold bind, ret in Hcall.
  - destruct (fetch_agents api m); cbn [fst]. congruence.
  - destruct (fetch_history agent_id m); cbn [fst]. congruence.
  - rewrite Hcall. cbn [fst]. eexists. split; reflexivity.
Qed.

Lemma append_cancel_l (s a b : string) : (s ++ a = s ++ b)%string -> a = b.
Proof.
  induction s as [|ch s IH]; cbn; intros H; [exact H|].
  injection H as H. exact (IH H).
Qed.

(** C9. When [agent_id] is [None] or the empty string, every request
    [submit_query] sends is one of the two global candidates, [/query] then
    [/api/query], with the body [{query}] and no [agent_id] key; the
    agent-scoped paths [/agents/{id}/query] and [/api/agents/{id}/query] are
    never requested. *)
Theorem submit_without_agent (agent_id : json) (query : string) (m : machine) :
  agent_id = JNull \/ agent_id = JStr "" ->
  let body := JDict [("query", JStr query)] in
  let global := [post_request "/query" body 120; post_request "/api/query" body 120] in
  (exists k, sent (snd (submit_query agent_id query m)) = (sent m ++ firstn k global)%list)
  /\ (forall r, In r global ->
        req_json r = Some body
        /\ req_url r <> url_of ("/agents/" ++ py_str agent_id ++ "/query")
        /\ req_url r <> url_of ("/api/agents/" ++ py_str agent_id ++ "/query")).
Proof.
  intros Hid body global. split.
  - destruct (probe_sent_prefix (parsed_payload (SubmitQuery agent_id query))
                (candidate_requests (SubmitQuery agent_id query)) m) as [k Hk].
    exists k.
    pose proof (call_probe (SubmitQuery agent_id query) m) as Hcall.
    cbn [call] in Hcall. rewrite Hcall. cbn [snd]. rewrite Hk.
    destruct Hid as [-> | ->]; cbn [candidate_requests truthy String.eqb negb map];
      rewrite app_nil_r; reflexivity.
  - intros r [<- | [<- | []]]; (split; [reflexivity|]);
      cbn [req_url post_request]; unfold url_of;
      split; intros H; apply append_cancel_l in H; cbn in H; discriminate H.
Qed.

(** C10. [submit_query] returns the parsed body of the first candidate whose
    reply has status 200 or 201 and a JSON body, as it is: the body [v] is
    arbitrary (a list, a string, a number or an object), and no shape is
    checked. *)
Theorem submit_returns_body_verbatim (agent_id : json) (query : string) (m : machine)
    (n : nat) (status : Z) (v : json) :
  status = 200 \/ status = 201 ->
  (forall i o, (i < n)%nat ->
     nth_error (replies (candidate_requests (SubmitQuery agent_id query)) (world m)) i
       = Some o ->
     any_payload o = None) ->
  nth_error (replies (candidate_requests (SubmitQuery agent_id query)) (world m)) n
    = Some (Response status (Some v)) ->
  fst (submit_query agent_id query m) = v.
Proof.
  intros Hstatus Hbefore Hnth.
  pose proof (call_probe (SubmitQuery agent_id query) m) as Hcall.
  rewrite (probe_first_success (parsed_payload (SubmitQuery agent_id query))
             (candidate_requests (SubmitQuery agent_id query)) m n v) in Hcall.
  - cbn [call] in Hcall. rewrite Hcall. reflexivity.
  - exact Hbefore.
  - exists (Response status (Some v)). split; [exact Hnth|].
    destruct Hstatus as [-> | ->]; reflexivity.
Qed.

End ProbingClaims.

Section OrderingFacts.

Lemma in_list_In (x : string) (l : list string) : in_list x l = true <-> In x l.
Proof.
  unfold in_list. rewrite existsb_exists. split.
  - intros [y [Hy Heq]]. apply String.eqb_eq in Heq. now subst.
  - intros H. exists x. split; [exact H | apply String.eqb_refl].
Qed.

Lemma dict_lookup_app_l (k : string) (pre rest : list (string * json)) :
  In k (map fst pre) -> dict_lookup k (pre ++ rest) = dict_lookup k pre.
Proof.
  induction pre as [|[k' v] pre IH]; cbn; intros H; [contradiction|].
  destruct (String.eqb k k') eqn:E; [reflexivity|].
  apply IH. destruct H as [H | H]; [|exact H].
  subst. rewrite String.eqb_refl in E. discriminate.
Qed.

Lemma dict_lookup_first (k : string) (v : json) (pre post : list (string * json)) :
  ~ In k (map fst pre) -> dict_lookup k (pre ++ (k, v) :: post) = Some v.
Proof.
  induction pre as [|[k' v'] pre IH]; cbn; intros H.
  - now rewrite String.eqb_refl.
  - destruct (String.eqb k k') eqn:E.
    + apply String.eqb_eq in E. subst. exfalso. apply H. now left.
    + apply IH. intros Hin. apply H. now right.
Qed.

Lemma visit_nodup (p : string) (c : list string) : NoDup c -> NoDup (visit p c).
Proof.
  intros H. unfold visit. destruct (in_list p c) eqn:E; [exact H|].
  constructor; [|exact H]. intros Hin. apply in_list_In in Hin. congruence.
Qed.

Lemma visit_In (p : string) (c : list string) : In p (visit p c).
Proof.
  unfold visit. destruct (in_list p c) eqn:E; [now apply in_list_In | now left].
Qed.

Lemma visit_suffix (p : string) (c : list string) :
  exists new, visit p c = (new ++ c)%list.
Proof.
  unfold visit. destruct (in_list p c); [now exists [] | now exists [p]].
Qed.

(** The scan only ever prepends: the list it started from stays at the end. *)
Lemma scan_suffix (table : list (string * json)) (keys c : list string) :
  exists new, fst (scan_paths table keys c) = (new ++ c)%list.
Proof.
  revert c. induction keys as [|p rest IH]; intros c; cbn [scan_paths].
  - now exists [].
  - destruct (contains "agent" (lower p)); [|apply IH].
    destruct (dict_lookup p table) as [item|]; [|now exists []].
    destruct (has_get item) as [[|]|]; [| apply IH | now exists []].
    destruct (IH (visit p c)) as [new Hnew].
    destruct (visit_suffix p c) as [new' Hnew'].
    exists (new ++ new')%list. rewrite Hnew, Hnew'. now rewrite app_assoc.
Qed.

Lemma scan_nodup (table : list (string * json)) (keys c : list string) :
  NoDup c -> NoDup (fst (scan_paths table keys c)).
Proof.
  revert c. induction keys as [|p rest IH]; intros c Hc; cbn [scan_paths]; [exact Hc|].
  destruct (contains "agent" (lower p)); [|now apply IH].
  destruct (dict_lookup p table) as [item|]; [|exact Hc].
  destruct (has_get item) as [[|]|]; [| now apply IH | exact Hc].
  apply IH. now apply visit_nodup.
Qed.

Lemma scan_mono (table : list (string * json)) (keys c : list string) (x : string) :
  In x c -> In x (fst (scan_paths table keys c)).
Proof.
  revert c. induction keys as [|p rest IH]; intros c Hc; cbn [scan_paths]; [exact Hc|].
  destruct (contains "agent" (lower p)); [|now apply IH].
  destruct (dict_lookup p table) as [item|]; [|exact Hc].
  destruct (has_get item) as [[|]|]; [| now apply IH | exact Hc].
  apply IH. destruct (visit_suffix p c) as [new ->]. apply in_or_app. now right.
Qed.

(** A scan that did not raise on a first run of keys goes on with the rest. *)
Lemma scan_app_clean (table : list (string * json)) (k1 k2 c : list string) :
  snd (scan_paths table k1 c) = false ->
  scan_paths table (k1 ++ k2) c = scan_paths table k2 (fst (scan_paths table k1 c)).
Proof.
  revert c. induction k1 as [|p rest IH]; intros c H; cbn [scan_paths app] in *.
  - reflexivity.
  - destruct (contains "agent" (lower p)); [|now apply IH].
    destruct (dict_lookup p table) as [item|]; [|discriminate H].
    destruct (has_get item) as [[|]|]; [| now apply IH | discriminate H].
    now apply IH.
Qed.

(** The scan reads the table only at the keys it visits. *)
Lemma scan_ext (t1 t2 : list (string * json)) (keys c : list string) :
  (forall k, In k keys -> dict_lookup k t1 = dict_lookup k t2) ->
  scan_paths t1 keys c = scan_paths t2 keys c.
Proof.
  revert c. induction keys as [|p rest IH]; intros c H; cbn [scan_paths]; [reflexivity|].
  rewrite <- (H p) by now left.
  assert (Hrest : forall k, In k rest -> dict_lookup k t1 = dict_lookup k t2)
    by (intros k Hk; apply H; now right).
  destruct (contains "agent" (lower p)); [|now apply IH].
  destruct (dict_lookup p t1) as [item|]; [|reflexivity].
  destruct (has_get item) as [[|]|]; [| now apply IH | reflexivity].
  now apply IH.
Qed.

(** On a clean scan every agent-related key had a value that supports [in]. *)
Lemma scan_clean_entries (table : list (string * json)) (keys c : list string) (k : string) :
  snd (scan_paths table keys c) = false ->
  In k keys -> contains "agent" (lower k) = true ->
  exists item b, dict_lookup k table = Some item /\ has_get item = Some b.
Proof.
  revert c. induction keys as [|p rest IH]; intros c H Hin Hk; [contradiction|].
  cbn [scan_paths] in H. destruct Hin as [-> | Hin].
  - rewrite Hk in H.
    destruct (dict_lookup k table) as [item|]; [|discriminate H].
    destruct (has_get item) as [b|] eqn:E; [|discriminate H].
    now exists item, b.
  - destruct (contains "agent" (lower p)); [|now apply (IH c)].
    destruct (dict_lookup p table) as [item|]; [|discriminate H].
    destruct (has_get item) as [[|]|]; [| now apply (IH c) | discriminate H].
    now apply (IH (visit p c)).
Qed.

(** A scan that raised stopped at some key: the keys before it were scanned
    cleanly and give the result. *)
Lemma scan_raise_split (table : list (string * json)) (keys c : list string) :
  snd (scan_paths table keys c) = true ->
  exists ks1 k ks2,
    keys = (ks1 ++ k :: ks2)%list
    /\ scan_paths table ks1 c = (fst (scan_paths table keys c), false)
    /\ contains "agent" (lower k) = true
    /\ (forall item, dict_lookup k table = Some item -> has_get item = None).
Proof.
  revert c. induction keys as [|p rest IH]; intros c H; [discriminate H|].
  cbn [scan_paths] in H.
  assert (Hrec : forall c',
            snd (scan_paths table rest c') = true ->
            scan_paths table [p] c = (c', false) ->
            scan_paths table (p :: rest) c = scan_paths table rest c' ->
            exists ks1 k ks2,
              (p :: rest = ks1 ++ k :: ks2)%list
              /\ scan_paths table ks1 c = (fst (scan_paths table (p :: rest) c), false)
              /\ contains "agent" (lower k) = true
              /\ (forall item, dict_lookup k table = Some item -> has_get item = None)).
  { intros c' Hc' Hone Hall.
    destruct (IH c' Hc') as (ks1 & k & ks2 & Hkeys & Hs & Hk & Hi).
    exists (p :: ks1), k, ks2. split; [now rewrite Hkeys|]. split; [|now split].
    change (p :: ks1) with ([p] ++ ks1)%list.
    rewrite scan_app_clean by now rewrite Hone.
    rewrite Hone, Hall. exact Hs. }
  cbn [scan_paths] in Hrec |- *. revert Hrec.
  destruct (contains "agent" (lower p)) eqn:Ep;
    [|intros Hrec; now apply (Hrec c)].
  destruct (dict_lookup p table) as [item|] eqn:El.
  - destruct (has_get item) as [[|]|] eqn:Eg; intros Hrec;
      [now apply (Hrec (visit p c)) | now apply (Hrec c) |].
    exists [], p, rest. repeat split; try assumption.
    intros item' Hitem'. congruence.
  - intros _. exists [], p, rest. repeat split; try assumption.
    intros item' Hitem'. congruence.
Qed.

End OrderingFacts.

Section OrderingClaims.
Context {RT : Runtime}.

Lemma fixed_candidates_nodup : NoDup fixed_candidates.
Proof.
  unfold fixed_candidates. repeat constructor; cbn; intuition discriminate.
Qed.

(** [fetch_agents] sends its candidates in the order of the list, and stops
    somewhere along it. *)
Lemma fetch_agents_sent (api : json) (m : machine) :
  exists k,
    sent (snd (fetch_agents api m))
    = (sent m ++ map (fun q => get_request q 20) (firstn k (agent_candidates api)))%list.
Proof.
  destruct (probe_sent_prefix (parsed_payload (FetchAgents api))
              (candidate_requests (FetchAgents api)) m) as [k Hk].
  exists k. pose proof (call_probe (FetchAgents api) m) as Hcall.
  apply (f_equal snd) in Hcall. cbn [snd] in Hcall.
  cbn [call] in Hcall. unfold bind, ret in Hcall.
  destruct (fetch_agents api m) as [l m']. cbn [snd] in Hcall |- *.
  rewrite Hcall, Hk. cbn [candidate_requests]. now rewrite firstn_map.
Qed.

(** C4 (amended). For every OpenAPI document whose path table has a path [p]
    containing "agent" (case-insensitive) that declares a GET operation, and in
    which no entry before [p] makes the traversal raise: [p] is a candidate of
    [fetch_agents]; the candidate list is the discovered paths followed by the
    two fixed fallbacks [/agents], [/api/agents], so [p] comes before both
    unless it is itself one of them; no path occurs twice in the list; and the
    requests are sent in the order of the list. *)
Theorem agent_get_path_before_fallbacks (api : json) (pre post : list (string * json))
    (p : string) (ops : list (string * json)) :
  path_table api = JDict (pre ++ (p, JDict ops) :: post) ->
  ~ In p (map fst pre) ->
  snd (scan_paths (pre ++ (p, JDict ops) :: post) (map fst pre) fixed_candidates) = false ->
  contains "agent" (lower p) = true ->
  dict_has "get" ops = true ->
  exists discovered,
    agent_candidates api = (discovered ++ fixed_candidates)%list
    /\ NoDup (agent_candidates api)
    /\ (In p discovered \/ In p fixed_candidates)
    /\ forall m, exists k,
         sent (snd (fetch_agents api m))
         = (sent m ++ map (fun q => get_request q 20) (firstn k (agent_candidates api)))%list.
Proof.
  intros Htable Hfirst Hclean Hagent Hget.
  unfold agent_candidates, probe_order. rewrite Htable.
  set (table := (pre ++ (p, JDict ops) :: post)%list) in *.
  destruct (scan_suffix table (map fst table) fixed_candidates) as [discovered Hd].
  exists discovered. split; [exact Hd|]. split; [|split].
  - apply scan_nodup, fixed_candidates_nodup.
  - apply in_app_or. rewrite <- Hd. unfold table.
    rewrite map_app. cbn [map fst].
    rewrite scan_app_clean by exact Hclean.
    cbn [scan_paths]. rewrite Hagent.
    fold table. unfold table at 1. rewrite (dict_lookup_first p _ pre post Hfirst).
    cbn [has_get]. rewrite Hget.
    apply scan_mono, visit_In.
  - intros m. destruct (fetch_agents_sent api m) as [k Hk]. exists k.
    rewrite Hk. unfold agent_candidates, probe_order. now rewrite Htable.
Qed.

(** C5 (amended). When the traversal of the path table raises, the error is
    swallowed and the candidate list still ends with the fixed fallbacks
    [/agents], [/api/agents], without repetition.  It is exactly the fixed
    list when the path table is not a dict; otherwise the traversal stopped
    at an agent-related entry whose value does not support [in], and the
    candidate list is the one the document gives when cut just before that
    entry: the paths prepended before the error stay. *)
Theorem parse_error_keeps_visited_paths (api : json) :
  snd (probe_order api) = true ->
  (exists discovered,
     agent_candidates api = (discovered ++ fixed_candidates)%list
     /\ NoDup (agent_candidates api))
  /\ (((forall table, path_table api <> JDict table)
       /\ agent_candidates api = fixed_candidates)
      \/ exists pre k item post,
           path_table api = JDict (pre ++ (k, item) :: post)
           /\ contains "agent" (lower k) = true
           /\ has_get item = None
           /\ probe_order (JDict [("paths", JDict pre)]) = (agent_candidates api, false)).
Proof.
  unfold agent_candidates, probe_order. intros Hraise.
  destruct (path_table api) as [| | | | |l|table] eqn:Etable;
    try (split; [exists []; split; [reflexivity | apply fixed_candidates_nodup]
                | left; split; [intros t; discriminate | reflexivity]]).
  split.
  - destruct (scan_suffix table (map fst table) fixed_candidates) as [discovered Hd].
    exists discovered. split; [exact Hd | apply scan_nodup, fixed_candidates_nodup].
  - right.
    destruct (scan_raise_split _ _ _ Hraise) as (ks1 & k & ks2 & Hkeys & Hs & Hk & Hi).
    apply map_eq_app in Hkeys. destruct Hkeys as (pre & rest & -> & Hpre & Hrest).
    apply map_eq_cons in Hrest. destruct Hrest as ([k' item] & post & -> & Hfst & _).
    cbn [fst] in Hfst. subst k' ks1.
    assert (Hnew : ~ In k (map fst pre)).
    { intros Hin.
      destruct (scan_clean_entries _ _ _ k (f_equal snd Hs) Hin Hk)
        as (item' & b & Hl & Hg).
      rewrite (Hi item' Hl) in Hg. discriminate Hg. }
    exists pre, k, item, post. split; [reflexivity|]. split; [exact Hk|]. split.
    + apply Hi. now apply dict_lookup_first.
    + cbn. rewrite <- Hs. apply scan_ext.
      intros q Hq. symmetry. now apply dict_lookup_app_l.
Qed.

End OrderingClaims.

Section SessionFacts.
Context {RT : Runtime}.


Lemma refresh_block_history (u : ui_input) (s : session_state) (m : machine) :
  history (fst (refresh_block u s m)) = history s.
Proof.
  unfold refresh_block, bind, ret. destruct (refresh_clicked u); [|reflexivity].
  destruct (discover_api m) as [api m0]. cbn [set_api_discovery api_discovery].
  destruct (fetch_agents api m0) as [found m1]. reflexivity.
Qed.

Lemma select_block_history (u : ui_input) (names : list json) (ids : list (json * json))
    (s : session_state) :
  history (select_block u names ids s) = history s.
Proof. destruct names; reflexivity. Qed.

Lemma load_history_block_cases (u : ui_input) (s : session_state) (m : machine) :
  let s' := fst (load_history_block u s m) in
  selected_agent_id s' = selected_agent_id s
  /\ (history s' = history s
      \/ (load_history_clicked u = true
          /\ history s' = fst (fetch_history (selected_agent_id s) m))).
Proof.
  unfold load_history_block, bind, ret.
  destruct (load_history_clicked u); [|now split; [|left]].
  destruct (fetch_history (selected_agent_id s) m) as [h m']. cbn [fst].
  split; [reflexivity|]. right. now split.
Qed.

(** The sidebar changes the log in one way only: a click on "Load History"
    that the script reaches replaces it by what [fetch_history] returns for the
    selected agent. *)
Lemma sidebar_history_cases (u : ui_input) (s : session_state) (m : machine) :
  let s' := fst (fst (_sidebar_ui u s m)) in
  history s' = history s
  \/ (load_history_clicked u = true
      /\ exists m1, history s' = fst (fetch_history (selected_agent_id s') m1)).
Proof.
  unfold _sidebar_ui, bind, ret.
  pose proof (refresh_block_history u s m) as Hr.
  destruct (refresh_block u s m) as [s1 m1]. cbn [fst] in Hr.
  destruct (index_agents (agents s1) [] []) as [[names ids]|]; [|now left].
  pose proof (select_block_history u names ids s1) as Hs.
  pose proof (load_history_block_cases u (select_block u names ids s1) m1) as Hl.
  destruct (load_history_block u (select_block u names ids s1) m1) as [s2 m2].
  cbn [fst] in Hl |- *. destruct Hl as [Hsel [Hh | [Hc Hh]]].
  - left. congruence.
  - right. split; [exact Hc|]. exists m1. now rewrite Hsel.
Qed.


(** The main panel appends exactly one interaction for a non-blank prompt
    that was submitted, and nothing otherwise. *)
Lemma main_panel_history (u : ui_input) (s : session_state) (m : machine) :
  history (fst (_main_panel u s m))
  = if (form_submitted u
        && negb (String.eqb (prompt u) "" || String.eqb (strip (prompt u)) ""))%bool
    then (history s
          ++ [interaction (selected_agent_id s) (strip (prompt u))
                (fst (submit_query (selected_agent_id s) (strip (prompt u))
                        (snd (clock m))))
                (fst (clock (snd (clock (snd (submit_query (selected_agent_id s)
                                                (strip (prompt u)) (snd (clock m))))))))
                (PrimFloat.sub
                   (fst (clock (snd (submit_query (selected_agent_id s)
                                       (strip (prompt u)) (snd (clock m))))))
                   (fst (clock m)))])%list
    else history s.
Proof.
  unfold _main_panel, bind, ret.
  destruct (form_submitted u); [|reflexivity].
  destruct (String.eqb (prompt u) "" || String.eqb (strip (prompt u)) "")%bool;
    [reflexivity|].
  cbn [andb negb].
  destruct (clock m) as [start m1]. cbn [fst snd].
  destruct (submit_query (selected_agent_id s) (strip (prompt u)) m1) as [resp m2].
  cbn [fst snd].
  destruct (clock m2) as [stop m3]. cbn [fst snd].
  destruct (clock m3) as [ts m4]. reflexivity.
Qed.

(** What comes before the sidebar in a script run does not touch the log. *)
Lemma main_unfold (u : ui_input) (stored : option session_state) (m : machine) :
  exists s1 m1,
    history s1 = history (_init_session_state stored)
    /\ main u stored m
       = bind (_sidebar_ui u s1)
           (fun r => let (s2, ran) := r in
                     if ran then bind (_main_panel u s2) (fun s3 => ret (s3, true))
                     else ret (s2, false)) m1.
Proof.
  unfold main. cbv beta delta [bind ret].
  set (s0 := _init_session_state stored).
  destruct (negb (truthy (api_discovery s0)));
    [destruct (discover_api m) as [api m0]|]; cbv beta iota;
    match goal with
    | |- context [match agents ?s with _ => _ end] => destruct (agents s)
    end;
    try match goal with
      | |- context [fetch_agents ?a ?m'] => destruct (fetch_agents a m') as [found m1]
      end;
    cbv beta iota; eexists _, _; (split; [|reflexivity]); reflexivity.
Qed.

Lemma clock_sent (m : machine) : sent (snd (clock m)) = sent m.
Proof. unfold clock. now destruct (time_time (world m)). Qed.



End SessionFacts.

Section SessionClaims.
Context {RT : Runtime}.



End SessionClaims.

Section RenderClaims.
Context {RT : Runtime}.

(** A list is rendered element by element, each under its position counted
    from 1. *)
Lemma render_list_labels (l : list json) :
  _render_response (JList l)
  = List.concat (map (fun p => StMarkdown ("**Item " ++ str_of_int (Z.of_nat (S (fst p))) ++ "**")
                            false
                          :: _render_response (snd p))
              (combine (seq 0 (List.length l)) l)).
Proof.
  cbn [_render_response].
  match goal with
  | |- ?items l 1 = _ =>
      assert (H : forall rest k,
                items rest (Z.of_nat (S k))
                = List.concat
                    (map (fun p => StMarkdown ("**Item " ++ str_of_int (Z.of_nat (S (fst p)))
                                               ++ "**") false
                                   :: _render_response (snd p))
                       (combine (seq k (List.length rest)) rest)))
  end.
  { induction rest as [|it rest IH]; intros k; [reflexivity|].
    cbn [List.length seq combine map List.concat fst snd app]. f_equal. f_equal.
    replace (Z.of_nat (S k) + 1) with (Z.of_nat (S (S k))) by lia.
    apply IH. }
  exact (H l 0%nat).
Qed.

(** C7. Rendering [{"answer": X, "sources": [{"title": T, "url": U}]}], for
    non-empty strings X, T, U, emits the primary text X (inside the card
    markup), a reference link labeled T that points to U, and a "Raw JSON"
    view that holds the original object. *)
Theorem render_answer_with_sources (X T U : string) :
  X <> "" -> T <> "" -> U <> "" ->
  let resp :=
    JDict [("answer", JStr X);
           ("sources", JList [JDict [("title", JStr T); ("url", JStr U)]])] in
  _render_response resp
  = [StMarkdown card_open true; StMarkdown X false; StMarkdown card_close true;
     StMarkdown "##### References" false;
     StMarkdown ("- [" ++ T ++ "](" ++ U ++ ")") false;
     StExpander "Raw JSON" [StJson resp]].
Proof.
  intros HX HT HU resp. subst resp.
  destruct X as [|x X]; [contradiction|].
  destruct T as [|t T]; [contradiction|].
  destruct U as [|u U]; [contradiction|].
  reflexivity.
Qed.

(** C8. Rendering [[n, s, {"content": t}]], for an int [n], a string [s] and
    a non-empty string [t], emits three items labeled by position, Item 1,
    Item 2, Item 3, each followed by the rendering of its element; the third
    shows the text [t] taken from its [content] key. *)
Theorem render_mixed_list (n : Z) (s t : string) :
  t <> "" ->
  _render_response (JList [JInt n; JStr s; JDict [("content", JStr t)]])
  = [StMarkdown "**Item 1**" false; StWrite (str_of_int n);
     StMarkdown "**Item 2**" false; StWrite s;
     StMarkdown "**Item 3**" false;
     StMarkdown card_open true; StMarkdown t false; StMarkdown card_close true;
     StExpander "Raw JSON" [StJson (JDict [("content", JStr t)])]].
Proof.
  intros Ht. rewrite render_list_labels.
  destruct t as [|c t]; [contradiction|]. reflexivity.
Qed.

End RenderClaims.

(* ================================================================== *)
(** * The properties at concrete inputs *)
(* ================================================================== *)

Lemma probing_returns_first_success_witness :
  @first_success scripted (FetchAgents doc_good) script_third_lists 2 (JList [JStr "a1"])
  /\ (JList (fst (@fetch_agents scripted doc_good (boot script_third_lists)))
        = JList [JStr "a1"]
      /\ sent (snd (@call scripted (FetchAgents doc_good) (boot script_third_lists)))
         = ([] ++ firstn 3 (@candidate_requests scripted (FetchAgents doc_good)))%list).
Proof.
  assert (H : @first_success scripted (FetchAgents doc_good) script_third_lists 2
                (JList [JStr "a1"])).
  { split.
    - intros i o Hi Hnth. destruct i as [|[|i]]; [| |lia];
        cbn in Hnth; injection Hnth as <-; reflexivity.
    - eexists. split; reflexivity. }
  split; [exact H|].
  exact (@probing_returns_first_success scripted (FetchAgents doc_good)
           (boot script_third_lists) 2 (JList [JStr "a1"]) H).
Defined.

Lemma probing_exhausted_witness :
  @no_success scripted (SubmitQuery (JStr "a1") "hi") []
  /\ exists d, fst (@submit_query scripted (JStr "a1") "hi" (boot [])) = JDict d
               /\ dict_has "error" d = true.
Proof.
  assert (H : @no_success scripted (SubmitQuery (JStr "a1") "hi") []).
  { unfold no_success. cbn. repeat constructor. }
  split; [exact H|].
  exact (@probing_exhausted scripted (SubmitQuery (JStr "a1") "hi") (boot []) H).
Defined.

Lemma submit_without_agent_witness :
  (JNull = JNull \/ JNull = JStr "")
  /\ exists k,
       sent (snd (@submit_query scripted JNull "hi" (boot script_second_created)))
       = ([] ++ firstn k
                  [@post_request scripted "/query" (JDict [("query", JStr "hi")]) 120;
                   @post_request scripted "/api/query" (JDict [("query", JStr "hi")]) 120])%list.
Proof.
  split; [now left|].
  exact (proj1 (@submit_without_agent scripted JNull "hi" (boot script_second_created)
                  (or_introl eq_refl))).
Defined.

Lemma submit_returns_body_verbatim_witness :
  (201 = 200 \/ 201 = 201)
  /\ fst (@submit_query scripted (JStr "a1") "hi" (boot script_second_created))
     = JList [JInt 1; JStr "x"].
Proof.
  split; [now right|].
  apply (@submit_returns_body_verbatim scripted (JStr "a1") "hi"
           (boot script_second_created) 1 201 (JList [JInt 1; JStr "x"])).
  - now right.
  - intros i o Hi Hnth. destruct i as [|i]; [|lia].
    cbn in Hnth. injection Hnth as <-. reflexivity.
  - reflexivity.
Defined.

Lemma agent_get_path_before_fallbacks_witness :
  contains "agent" (lower "/v1/Agents") = true
  /\ exists discovered,
       agent_candidates doc_good = (discovered ++ fixed_candidates)%list
       /\ NoDup (agent_candidates doc_good)
       /\ (In "/v1/Agents" discovered \/ In "/v1/Agents" fixed_candidates)
       /\ forall m, exists k,
            sent (snd (@fetch_agents scripted doc_good m))
            = (sent m ++ map (fun q => @get_request scripted q 20)
                           (firstn k (agent_candidates doc_good)))%list.
Proof.
  split; [reflexivity|].
  apply (@agent_get_path_before_fallbacks scripted doc_good
           [("/health", JDict [("get", JDict [])])]
           [("/v1/agents/run", JDict [("post", JDict [])]);
            ("/agents", JDict [("get", JDict [])])]
           "/v1/Agents" [("get", JDict [])]).
  - reflexivity.
  - cbn. intros [H | []]. discriminate H.
  - reflexivity.
  - reflexivity.
  - reflexivity.
Defined.

Lemma parse_error_keeps_visited_paths_witness :
  snd (probe_order doc_bad_second) = true
  /\ exists discovered,
       agent_candidates doc_bad_second = (discovered ++ fixed_candidates)%list
       /\ NoDup (agent_candidates doc_bad_second).
Proof.
  split; [reflexivity|].
  exact (proj1 (parse_error_keeps_visited_paths doc_bad_second eq_refl)).
Defined.



Lemma render_answer_with_sources_witness :
  "X" <> "" /\ "T" <> "" /\ "U" <> ""
  /\ @_render_response scripted answer_with_sources
     = [StMarkdown card_open true; StMarkdown "X" false; StMarkdown card_close true;
        StMarkdown "##### References" false;
        StMarkdown "- [T](U)" false;
        StExpander "Raw JSON" [StJson answer_with_sources]].
Proof.
  assert (HX : "X" <> "") by discriminate.
  assert (HT : "T" <> "") by discriminate.
  assert (HU : "U" <> "") by discriminate.
  repeat (split; [assumption|]).
  exact (@render_answer_with_sources scripted "X" "T" "U" HX HT HU).
Defined.

Lemma render_mixed_list_witness :
  "three" <> ""
  /\ @_render_response scripted mixed_list
     = [StMarkdown "**Item 1**" false; StWrite "1";
        StMarkdown "**Item 2**" false; StWrite "two";
        StMarkdown "**Item 3**" false;
        StMarkdown card_open true; StMarkdown "three" false; StMarkdown card_close true;
        StExpander "Raw JSON" [StJson (JDict [("content", JStr "three")])]].
Proof.
  assert (Ht : "three" <> "") by discriminate.
  split; [exact Ht|].
  exact (@render_mixed_list scripted 1 "two" "three" Ht).
Defined.


(** C4 as stated fails: [/v1/agents] is an agent path of the table that
    declares GET, yet it is not a candidate and is never requested, because
    the entry before it made the traversal raise. *)
Lemma agent_get_path_lost_after_bad_entry :
  path_table doc_bad_first = JDict bad_first_paths
  /\ dict_lookup "/v1/agents" bad_first_paths = Some (JDict [("get", JDict [])])
  /\ contains "agent" (lower "/v1/agents") = true
  /\ ~ In "/v1/agents" (agent_candidates doc_bad_first)
  /\ map req_url (sent (snd (@fetch_agents scripted doc_bad_first (boot []))))
     = ["http://localhost:8000/agents"; "http://localhost:8000/api/agents"].
Proof.
  repeat split; try reflexivity.
  cbn. intros [H | [H | []]]; discriminate H.
Qed.

(** C5 as stated fails: the traversal raises at the second entry, and the
    path prepended for the first entry stays in the candidate list. *)
Lemma parse_error_after_insertion :
  snd (probe_order doc_bad_second) = true
  /\ agent_candidates doc_bad_second = ["/v1/agents"; "/agents"; "/api/agents"]
  /\ agent_candidates doc_bad_second <> fixed_candidates.
Proof.
  repeat split; try reflexivity. cbn. discriminate.
Qed.


(* ================================================================== *)
(** * Further properties of the probing functions *)
(* ================================================================== *)

Section ProbingMore.
Context {RT : Runtime}.


Lemma replies_length (reqs : list request) (w : World) :
  List.length (replies reqs w) = List.length reqs.
Proof.
  revert w. induction reqs as [|r rest IH]; intros w; [reflexivity|].
  cbn [replies]. destruct (http_send r w) as [o w']. cbn [List.length]. now rewrite IH.
Qed.

(** Along any candidate list some reply is the first accepted one, or none
    is accepted. *)
Lemma replies_cases {A : Type} (accept : outcome -> option A) (reqs : list request)
    (w : World) :
  (exists n o v,
      nth_error (replies reqs w) n = Some o /\ accept o = Some v
      /\ forall i o', (i < n)%nat -> nth_error (replies reqs w) i = Some o' ->
                      accept o' = None)
  \/ Forall (fun o => accept o = None) (replies reqs w).
Proof.
  revert w. induction reqs as [|r rest IH]; intros w; [right; constructor|].
  cbn [replies]. destruct (http_send r w) as [o w'].
  destruct (accept o) as [v|] eqn:Eo.
  - left. exists 0%nat, o, v. repeat split; try assumption. intros i o' Hi; lia.
  - destruct (IH w') as [(n & o1 & v & Hn & Hv & Hb) | Hall].
    + left. exists (S n), o1, v. repeat split; try assumption.
      intros [|i] o' Hi Ho'; [cbn in Ho'; congruence|].
      apply (Hb i o'); [lia | exact Ho'].
    + right. now constructor.
Qed.

Lemma agent_candidates_length (api : json) :
  (2 <= List.length (agent_candidates api))%nat.
Proof.
  unfold agent_candidates, probe_order.
  destruct (path_table api) as [| | | | | |table]; try (cbn; lia).
  destruct (scan_suffix table (map fst table) fixed_candidates) as [new ->].
  rewrite length_app. cbn. lia.
Qed.

Lemma candidate_requests_length (c : prober) :
  List.length (candidate_requests c)
  = match c with
    | FetchAgents api => List.length (agent_candidates api)
    | FetchHistory agent_id | SubmitQuery agent_id _ =>
        if truthy agent_id then 4%nat else 2%nat
    end.
Proof.
  destruct c as [api | agent_id | agent_id query]; cbn [candidate_requests].
  - apply length_map.
  - rewrite length_map, length_app. now destruct (truthy agent_id).
  - rewrite length_app, length_map. destruct (truthy agent_id); reflexivity.
Qed.

(** The two ways a probing call can end. *)
Lemma call_cases (c : prober) (m : machine) :
  (exists n,
      first_success c (world m) n (fst (call c m))
      /\ sent (snd (call c m)) = (sent m ++ firstn (S n) (candidate_requests c))%list)
  \/ (no_success c (world m)
      /\ fst (call c m) = when_exhausted c
      /\ sent (snd (call c m)) = (sent m ++ candidate_requests c)%list).
Proof.
  pose proof (call_probe c m) as Hcall.
  destruct (replies_cases (parsed_payload c) (candidate_requests c) (world m))
    as [(n & o & v & Hn & Hv & Hb) | Hall].
  - left. exists n.
    rewrite (probe_first_success (parsed_payload c) (candidate_requests c) m n v Hb)
      in Hcall by (exists o; now split).
    rewrite Hcall. cbn [fst snd sent]. split; [|reflexivity].
    split; [exact Hb | exists o; now split].
  - right. split; [exact Hall|].
    rewrite (probe_no_success (parsed_payload c) (candidate_requests c) m Hall) in Hcall.
    rewrite Hcall. cbn [fst snd sent]. split; [|reflexivity].
    now destruct c.
Qed.

(** X1. What a probing function returns is always one of two things: the
    parsed payload of the first candidate whose reply is accepted, with the
    candidates sent up to that one; or, when no reply is accepted, the
    failure value (the empty list, or the error dict for [submit_query]),
    with every candidate sent once. *)
Theorem probing_result_cases (c : prober) (m : machine) :
  (exists n,
      first_success c (world m) n (fst (call c m))
      /\ sent (snd (call c m)) = (sent m ++ firstn (S n) (candidate_requests c))%list)
  \/ (no_success c (world m)
      /\ fst (call c m) = when_exhausted c
      /\ sent (snd (call c m)) = (sent m ++ candidate_requests c)%list).
Proof.
  pose proof (call_probe c m) as Hcall.
  destruct (replies_cases (parsed_payload c) (candidate_requests c) (world m))
    as [(n & o & v & Hn & Hv & Hb) | Hall].
  - left. exists n.
    rewrite (probe_first_success (parsed_payload c) (candidate_requests c) m n v Hb)
      in Hcall by (exists o; now split).
    rewrite Hcall. cbn [fst snd sent]. split; [|reflexivity].
    split; [exact Hb | exists o; now split].
  - right. split; [exact Hall|].
    rewrite (probe_no_success (parsed_payload c) (candidate_requests c) m Hall) in Hcall.
    rewrite Hcall. cbn [fst snd sent]. split; [|reflexivity].
    now destruct c.
Qed.

(** A probing call sends a non-empty prefix of its candidates. *)
Lemma call_prefix (c : prober) (m : machine) :
  (exists k,
      (1 <= k <= List.length (candidate_requests c))%nat
      /\ sent (snd (call c m)) = (sent m ++ firstn k (candidate_requests c))%list)
  /\ (2 <= List.length (candidate_requests c))%nat
  /\ List.length (candidate_requests c)
     = match c with
       | FetchAgents api => List.length (agent_candidates api)
       | FetchHistory agent_id | SubmitQuery agent_id _ =>
           if truthy agent_id then 4%nat else 2%nat
       end.
Proof.
  assert (Hlen : (2 <= List.length (candidate_requests c))%nat).
  { rewrite candidate_requests_length. destruct c as [api | a | a q].
    - apply agent_candidates_length.
    - destruct (truthy a); lia.
    - destruct (truthy a); lia. }
  split; [|split; [exact Hlen|]].
  - destruct (call_cases c m) as [(n & [_ (o & Hn & _)] & Hs) | (_ & _ & Hs)].
    + exists (S n). split; [|exact Hs].
      assert (n < List.length (replies (candidate_requests c) (world m)))%nat
        by (apply nth_error_Some; congruence).
      rewrite replies_length in H. lia.
    + exists (List.length (candidate_requests c)). split; [lia|].
      now rewrite firstn_all.
  - apply candidate_requests_length.
Qed.

(** X2. Every call of a probing function sends at least one request and at
    most its whole candidate list, always a prefix of that list in its
    order.  [fetch_history] and [submit_query] have four candidates when
    [agent_id] is truthy and two otherwise; [fetch_agents] has at least the
    two fixed ones. *)
Theorem probing_sends_prefix (c : prober) (m : machine) :
  (exists k,
      (1 <= k <= List.length (candidate_requests c))%nat
      /\ sent (snd (call c m)) = (sent m ++ firstn k (candidate_requests c))%list)
  /\ (2 <= List.length (candidate_requests c))%nat
  /\ List.length (candidate_requests c)
     = match c with
       | FetchAgents api => List.length (agent_candidates api)
       | FetchHistory agent_id | SubmitQuery agent_id _ =>
           if truthy agent_id then 4%nat else 2%nat
       end.
Proof.
  assert (Hlen : (2 <= List.length (candidate_requests c))%nat).
  { rewrite candidate_requests_length. destruct c as [api | a | a q].
    - apply agent_candidates_length.
    - destruct (truthy a); lia.
    - destruct (truthy a); lia. }
  split; [|split; [exact Hlen|]].
  - destruct (call_cases c m) as [(n & [_ (o & Hn & _)] & Hs) | (_ & _ & Hs)].
    + exists (S n). split; [|exact Hs].
      assert (n < List.length (replies (candidate_requests c) (world m)))%nat
        by (apply nth_error_Some; congruence).
      rewrite replies_length in H. lia.
    + exists (List.length (candidate_requests c)). split; [lia|].
      now rewrite firstn_all.
  - apply candidate_requests_length.
Qed.

(** X3. With a falsy [agent_id] ([None], the empty string, 0, an empty list
    or dict, [False]) [fetch_history] only requests [/history] and then
    [/api/history], by GET with timeout 30 and no body; the agent-scoped
    history paths are not requested. *)
Theorem fetch_history_without_agent (agent_id : json) (m : machine) :
  truthy agent_id = false ->
  exists k,
    (1 <= k <= 2)%nat
    /\ sent (snd (fetch_history agent_id m))
       = (sent m ++ firstn k [get_request "/history" 30; get_request "/api/history" 30])%list.
Proof.
  intros Hfalsy.
  destruct (call_prefix (FetchHistory agent_id) m) as [(k & Hk & Hs) [_ Hl]].
  cbn beta iota in Hl. rewrite Hl, Hfalsy in Hk. exists k. split; [exact Hk|].
  cbn [call] in Hs. unfold bind, ret in Hs.
  destruct (fetch_history agent_id m) as [l m']. cbn [snd] in Hs |- *.
  rewrite Hs. cbn [candidate_requests]. rewrite Hfalsy. reflexivity.
Qed.


End ProbingMore.

(* ================================================================== *)
(** * Further properties of the URLs and of the candidate ordering *)
(* ================================================================== *)

Section OrderingMore.
Context {RT : Runtime}.

Lemma lstrip_slash_spec (s : string) :
  (exists k, s = slashes k ++ lstrip_slash s)
  /\ forall t, lstrip_slash s <> String slash t.
Proof.
  induction s as [|c s [[k Hk] Hno]]; cbn [lstrip_slash].
  - split; [now exists 0%nat | discriminate].
  - destruct (Ascii.eqb c slash) eqn:Ec.
    + apply Ascii.eqb_eq in Ec. subst c. split; [|exact Hno].
      exists (S k). cbn [slashes append]. now rewrite <- Hk.
    + split; [now exists 0%nat|]. intros t H. injection H as H _.
      subst c. now rewrite Ascii.eqb_refl in Ec.
Qed.

Lemma rstrip_slash_spec (s : string) :
  (exists n, s = rstrip_slash s ++ slashes n)
  /\ forall t, rstrip_slash s <> t ++ "/".
Proof.
  induction s as [|c s [[n Hn] Hno]]; cbn [rstrip_slash].
  - split; [now exists 0%nat|]. intros [|a t]; discriminate.
  - destruct (rstrip_slash s) as [|a r] eqn:Er.
    + destruct (Ascii.eqb c slash) eqn:Ec.
      * apply Ascii.eqb_eq in Ec. subst c. split.
        -- exists (S n). cbn [slashes append] in *. now rewrite <- Hn.
        -- intros [|a t]; discriminate.
      * split.
        -- exists n. cbn [append] in *. now rewrite <- Hn.
        -- intros [|a t] H; cbn in H.
           ++ injection H as H. subst c. now rewrite Ascii.eqb_refl in Ec.
           ++ injection H as _ H. destruct t; discriminate H.
    + split.
      * exists n. cbn [append] in *. now rewrite <- Hn.
      * intros [|b t] H; cbn in H; [discriminate H|].
        injection H as _ H. exact (Hno t H).
Qed.

(** X5. The URL of a request is the base, a single slash and the path:
    whatever slashes end the configured base URL or start the path are
    dropped, and nothing else is. *)
Theorem url_join (path : string) :
  exists b r n k,
    url_of path = b ++ "/" ++ r
    /\ get_backend_base_url = b ++ slashes n
    /\ path = slashes k ++ r
    /\ (forall t, b <> t ++ "/")
    /\ (forall t, r <> String slash t).
Proof.
  destruct (rstrip_slash_spec get_backend_base_url) as [[n Hn] Hb].
  destruct (lstrip_slash_spec path) as [[k Hk] Hr].
  exists (rstrip_slash get_backend_base_url), (lstrip_slash path), n, k.
  repeat split; assumption.
Qed.

Lemma scan_discovered (table : list (string * json)) (keys c : list string) :
  exists new,
    fst (scan_paths table keys c) = (new ++ c)%list
    /\ (List.length new <= List.length keys)%nat
    /\ Forall (fun p => In p keys /\ qualifies table p = true /\ ~ In p c) new.
Proof.
  revert c. induction keys as [|p rest IH]; intros c; cbn [scan_paths].
  - exists []. repeat split; [cbn; lia | constructor].
  - assert (Hweak : forall c' new,
              (forall x, In x c -> In x c') ->
              (List.length new <= List.length rest)%nat ->
              Forall (fun q => In q rest /\ qualifies table q = true /\ ~ In q c') new ->
              (List.length new <= List.length (p :: rest))%nat
              /\ Forall (fun q => In q (p :: rest) /\ qualifies table q = true /\ ~ In q c)
                   new).
    { intros c' new Hsub Hl Hf. split; [cbn; lia|].
      eapply Forall_impl; [|exact Hf]. cbn. intros q (Hq & Hqual & Hnot).
      repeat split; [now right | exact Hqual | intros Hc; apply Hnot, Hsub, Hc]. }
    destruct (contains "agent" (lower p)) eqn:Ep.
    + destruct (dict_lookup p table) as [item|] eqn:El;
        [|exists []; repeat split; [cbn; lia | constructor]].
      destruct (has_get item) as [[|]|] eqn:Eg;
        [| | exists []; repeat split; [cbn; lia | constructor]].
      * unfold visit. destruct (in_list p c) eqn:Ein.
        -- destruct (IH c) as (new & Hnew & Hl & Hf). exists new.
           split; [exact Hnew|]. now apply (Hweak c).
        -- destruct (IH (p :: c)) as (new & Hnew & Hl & Hf).
           exists (new ++ [p])%list. split; [now rewrite Hnew, <- app_assoc|].
           split; [rewrite length_app; cbn; lia|].
           apply Forall_app. split.
           ++ apply (Hweak (p :: c)); [intros x Hx; now right | exact Hl | exact Hf].
           ++ constructor; [|constructor]. repeat split; [now left | |].
              ** unfold qualifies. now rewrite Ep, El, Eg.
              ** intros Hc. apply in_list_In in Hc. congruence.
      * destruct (IH c) as (new & Hnew & Hl & Hf). exists new.
        split; [exact Hnew|]. now apply (Hweak c).
    + destruct (IH c) as (new & Hnew & Hl & Hf). exists new.
      split; [exact Hnew|]. now apply (Hweak c).
Qed.

(** X6. Whatever the OpenAPI document is, and whether or not its traversal
    raised, the candidate list of [fetch_agents] is some discovered paths
    followed by [/agents], [/api/agents]; it has no repetition; every
    discovered path is a key of the path table that contains "agent"
    (case-insensitive), has ["get"] in its entry and is not a fixed path; and
    there are no more discovered paths than entries in the table. *)
Theorem agent_candidates_structure (api : json) :
  exists discovered,
    agent_candidates api = (discovered ++ fixed_candidates)%list
    /\ NoDup (agent_candidates api)
    /\ Forall (fun p =>
                 ~ In p fixed_candidates
                 /\ exists table,
                      path_table api = JDict table
                      /\ In p (map fst table) /\ qualifies table p = true)
         discovered
    /\ forall table, path_table api = JDict table ->
                     (List.length discovered <= List.length table)%nat.
Proof.
  unfold agent_candidates, probe_order.
  destruct (path_table api) as [| | | | | |table] eqn:Et;
    try (exists []; repeat split;
         [apply fixed_candidates_nodup | constructor | intros t; discriminate]).
  destruct (scan_discovered table (map fst table) fixed_candidates)
    as (new & Hnew & Hl & Hf).
  exists new. split; [exact Hnew|]. split; [apply scan_nodup, fixed_candidates_nodup|].
  split.
  - eapply Forall_impl; [|exact Hf]. cbn. intros p (Hp & Hq & Hn).
    split; [exact Hn|]. now exists table.
  - intros t Ht. injection Ht as <-. now rewrite length_map in Hl.
Qed.

(** X7. When no key of the path table contains "agent", the traversal never
    looks at the entries: it cannot raise, whatever the entries are, and
    [fetch_agents] probes the fixed list only.  This covers a document that
    is not a dict or has no [paths] (the table is then empty). *)
Theorem no_agent_paths_no_discovery (api : json) (table : list (string * json)) :
  path_table api = JDict table ->
  Forall (fun entry => contains "agent" (lower (fst entry)) = false) table ->
  probe_order api = (fixed_candidates, false).
Proof.
  intros Ht Hno. unfold probe_order. rewrite Ht.
  assert (Hscan : forall keys c,
            Forall (fun k => contains "agent" (lower k) = false) keys ->
            scan_paths table keys c = (c, false)).
  { induction keys as [|k keys IH]; intros c Hk; [reflexivity|].
    inversion Hk as [|? ? Hk1 Hk2]; subst. cbn [scan_paths]. rewrite Hk1. now apply IH. }
  apply Hscan. apply Forall_map. exact Hno.
Qed.

Lemma scan_reverse (table : list (string * json)) (keys c : list string) :
  NoDup keys ->
  snd (scan_paths table keys c) = false ->
  fst (scan_paths table keys c)
  = (rev (filter (fun p => qualifies table p && negb (in_list p c))%bool keys) ++ c)%list.
Proof.
  revert c. induction keys as [|p rest IH]; intros c Hnd Hclean; [reflexivity|].
  inversion Hnd as [|? ? Hp Hrest]; subst.
  cbn [scan_paths filter] in *. unfold qualifies at 1.
  destruct (contains "agent" (lower p)) eqn:Ep; cbn [andb]; [|now apply IH].
  destruct (dict_lookup p table) as [item|] eqn:El; [|discriminate Hclean].
  destruct (has_get item) as [[|]|] eqn:Eg; [| now apply IH | discriminate Hclean].
  unfold visit in *. destruct (in_list p c) eqn:Ein; cbn [negb andb]; [now apply IH|].
  rewrite (IH (p :: c) Hrest Hclean). cbn [rev]. rewrite <- app_assoc. cbn [app].
  f_equal. f_equal. apply filter_ext_in. intros q Hq.
  unfold in_list. cbn [existsb].
  destruct (String.eqb q p) eqn:Eq; [|reflexivity].
  apply String.eqb_eq in Eq. subst q. contradiction.
Qed.

(** X8. When the traversal of the path table does not raise, the discovered
    paths are probed in the reverse of their order in the document: each
    qualifying path is inserted in front, so the last one of the table is
    tried first, and the fixed paths come last. *)
Theorem discovered_in_reverse_order (api : json) (table : list (string * json)) :
  path_table api = JDict table ->
  NoDup (map fst table) ->
  snd (probe_order api) = false ->
  agent_candidates api
  = (rev (filter (fun p => qualifies table p && negb (in_list p fixed_candidates))%bool
            (map fst table))
     ++ fixed_candidates)%list.
Proof.
  unfold agent_candidates, probe_order. intros Ht Hnd Hclean. rewrite Ht in *.
  now apply scan_reverse.
Qed.

End OrderingMore.

(* ================================================================== *)
(** * Further properties of a script run *)
(* ================================================================== *)

Section BackendDown.
Context {RT : Runtime}.

Lemma later_trans (w w1 w2 : World) : later w w1 -> later w1 w2 -> later w w2.
Proof.
  intros H1 H2. induction H2 as [|w' req _ IH|w' _ IH];
    [exact H1 | now apply later_send | now apply later_tick].
Qed.

Lemma down_later (w w' : World) : down w -> later w w' -> down w'.
Proof.
  intros Hd Hl w'' req Hl'. apply Hd. exact (later_trans _ _ _ Hl Hl').
Qed.

Lemma down_replies (reqs : list request) (w : World) :
  down w ->
  Forall (fun o => o = TransportError) (replies reqs w) /\ down (world_after reqs w).
Proof.
  revert w. induction reqs as [|r rest IH]; intros w Hd; cbn [replies world_after].
  - split; [constructor | exact Hd].
  - pose proof (Hd w r (later_now w)) as Hr.
    assert (Hd' : down (snd (http_send r w)))
      by (apply (down_later w); [exact Hd | apply later_send, later_now]).
    destruct (http_send r w) as [o w']. cbn [fst snd] in *. subst o.
    destruct (IH w' Hd') as [Hall Hafter]. split; [now constructor | exact Hafter].
Qed.

(** With the backend down a probing call tries every candidate and gives its
    failure value. *)
Lemma down_call (c : prober) (m : machine) :
  down (world m) ->
  exists m', call c m = (when_exhausted c, m') /\ down (world m')
             /\ sent m' = (sent m ++ candidate_requests c)%list.
Proof.
  intros Hd. destruct (down_replies (candidate_requests c) (world m) Hd) as [Hall Hafter].
  assert (Hnone : Forall (fun o => parsed_payload c o = None)
                    (replies (candidate_requests c) (world m))).
  { eapply Forall_impl; [|exact Hall]. cbn. intros o ->. now destruct c. }
  pose proof (call_probe c m) as Hcall.
  rewrite (probe_no_success (parsed_payload c) (candidate_requests c) m Hnone) in Hcall.
  cbn [fst snd] in Hcall.
  exists {| world := world_after (candidate_requests c) (world m);
            sent := sent m ++ candidate_requests c |}.
  split; [|split; [exact Hafter | reflexivity]].
  rewrite Hcall. now destruct c.
Qed.

Lemma down_fetch_agents (api : json) (m : machine) :
  down (world m) -> exists m', fetch_agents api m = ([], m') /\ down (world m').
Proof.
  intros Hd. destruct (down_call (FetchAgents api) m Hd) as (m' & Hc & Hd' & _).
  cbn [call when_exhausted] in Hc. unfold bind, ret in Hc.
  destruct (fetch_agents api m) as [l m1]. exists m'. split; [congruence | exact Hd'].
Qed.

Lemma down_fetch_history (agent_id : json) (m : machine) :
  down (world m) -> exists m', fetch_history agent_id m = ([], m') /\ down (world m').
Proof.
  intros Hd. destruct (down_call (FetchHistory agent_id) m Hd) as (m' & Hc & Hd' & _).
  cbn [call when_exhausted] in Hc. unfold bind, ret in Hc.
  destruct (fetch_history agent_id m) as [l m1]. exists m'. split; [congruence | exact Hd'].
Qed.


Lemma down_discover_api (m : machine) :
  down (world m) -> exists m', discover_api m = (JDict [], m') /\ down (world m').
Proof.
  intros Hd. unfold discover_api, _http_get, bind, ret, send.
  pose proof (Hd (world m) (get_request "openapi.json" 20) (later_now _)) as Hr.
  assert (Hd' : down (snd (http_send (get_request "openapi.json" 20) (world m))))
    by (apply (down_later (world m)); [exact Hd | apply later_send, later_now]).
  destruct (http_send (get_request "openapi.json" 20) (world m)) as [o w'].
  cbn [fst snd] in *. subst o. eexists. split; [reflexivity | exact Hd'].
Qed.


Lemma down_refresh_block (u : ui_input) (s : session_state) (m : machine) :
  down (world m) ->
  exists m',
    down (world m')
    /\ refresh_block u s m
       = (if refresh_clicked u then set_agents [] (set_api_discovery (JDict []) s) else s,
          m').
Proof.
  intros Hd. unfold refresh_block, bind, ret.
  destruct (refresh_clicked u); [|now exists m].
  destruct (down_discover_api m Hd) as (m1 & -> & Hd1).
  cbn [set_api_discovery api_discovery].
  destruct (down_fetch_agents (JDict []) m1 Hd1) as (m2 & -> & Hd2).
  now exists m2.
Qed.

Lemma down_load_history_block (u : ui_input) (s : session_state) (m : machine) :
  down (world m) ->
  exists m',
    down (world m')
    /\ load_history_block u s m
       = (if load_history_clicked u then set_history [] s else s, m').
Proof.
  intros Hd. unfold load_history_block, bind, ret.
  destruct (load_history_clicked u); [|now exists m].
  destruct (down_fetch_history (selected_agent_id s) m Hd) as (m1 & -> & Hd1).
  now exists m1.
Qed.


(** X9. A click on "Refresh API & Agents" while the backend is down replaces
    the stored OpenAPI document by the empty dict and the stored agents by
    the empty list; the select box is then not shown, so the agent selected
    before stays selected. *)
Theorem refresh_while_down (u : ui_input) (s : session_state) (m : machine) :
  down (world m) ->
  refresh_clicked u = true ->
  let s' := fst (fst (_sidebar_ui u s m)) in
  api_discovery s' = JDict [] /\ agents s' = []
  /\ selected_agent_id s' = selected_agent_id s.
Proof.
  intros Hd Hr. unfold _sidebar_ui, bind, ret.
  destruct (down_refresh_block u s m Hd) as (m1 & Hd1 & ->). rewrite Hr.
  cbn [set_agents agents index_agents select_block].
  edestruct down_load_history_block as (m2 & Hd2 & Hl); [exact Hd1|].
  rewrite Hl. now destruct (load_history_clicked u).
Qed.


End BackendDown.

Section RunFacts.
Context {RT : Runtime}.






Lemma index_agents_hashable (l : list json) (names : list json)
    (ids : list (json * json)) :
  Forall (fun a => hashable (agent_label a) = true) l ->
  index_agents l names ids
  = Some ((names ++ map agent_label l)%list,
          fold_left (fun d a => label_set (agent_label a) (agent_identity a) d) l ids).
Proof.
  revert names ids. induction l as [|a l IH]; intros names ids Hall.
  - cbn. now rewrite app_nil_r.
  - inversion Hall as [|? ? Ha Hl]; subst. cbn [index_agents map fold_left].
    rewrite Ha, (IH _ _ Hl), <- app_assoc. reflexivity.
Qed.

Lemma key_eqb_str (k : json) (K : string) : key_eqb k (JStr K) = true -> k = JStr K.
Proof.
  destruct k; cbn; try discriminate; try (destruct b; discriminate).
  intros H. apply String.eqb_eq in H. now subst.
Qed.

(** Insert then look up, on the label table. *)
Lemma label_get_set_same (L : string) (v : json) (d : list (json * json)) :
  label_get (JStr L) (label_set (JStr L) v d) = v.
Proof.
  induction d as [|[k w] d IH]; cbn [label_set label_get].
  - cbn. now rewrite String.eqb_refl.
  - destruct (key_eqb k (JStr L)) eqn:E; cbn [label_get]; rewrite E; [reflexivity | exact IH].
Qed.

Lemma label_get_set_other (K L : string) (v : json) (d : list (json * json)) :
  K <> L -> label_get (JStr L) (label_set (JStr K) v d) = label_get (JStr L) d.
Proof.
  intros Hne. induction d as [|[k w] d IH]; cbn [label_set label_get].
  - cbn. apply String.eqb_neq in Hne. now rewrite Hne.
  - destruct (key_eqb k (JStr K)) eqn:E; cbn [label_get].
    + apply key_eqb_str in E. subst k. cbn.
      apply String.eqb_neq in Hne. now rewrite Hne.
    + destruct (key_eqb k (JStr L)); [reflexivity | exact IH].
Qed.

Lemma find_app_last {A : Type} (f : A -> bool) (l : list A) (a : A) :
  find f (l ++ [a])
  = match find f l with Some b => Some b | None => if f a then Some a else None end.
Proof.
  induction l as [|b l IH]; cbn; [reflexivity|]. now destruct (f b).
Qed.

(** After the loop of lines 266-275 a label leads to the identity of the
    last agent that carries it. *)
Lemma label_get_fold (L : string) (l : list json) (d : list (json * json)) :
  Forall (fun a => exists K, agent_label a = JStr K) l ->
  label_get (JStr L)
    (fold_left (fun d a => label_set (agent_label a) (agent_identity a) d) l d)
  = match find (fun a => key_eqb (agent_label a) (JStr L)) (rev l) with
    | Some a => agent_identity a
    | None => label_get (JStr L) d
    end.
Proof.
  revert d. induction l as [|a l IH]; intros d Hall; [reflexivity|].
  inversion Hall as [|? ? [K HK] Hl]; subst. cbn [fold_left rev].
  rewrite (IH _ Hl), find_app_last.
  destruct (find _ (rev l)); [reflexivity|].
  rewrite HK. cbn [key_eqb]. destruct (String.eqb K L) eqn:E.
  - apply String.eqb_eq in E. subst K. apply label_get_set_same.
  - apply String.eqb_neq in E. now apply label_get_set_other.
Qed.

(** X14. When every agent's label is a string, choosing an agent in the
    select box stores the identity of the last agent of the list that carries
    the chosen label: agents that share a label cannot be told apart, and the
    later one wins.  (The label "(None)" is the box's own first option and
    is excluded.) *)
Theorem selection_by_label (u : ui_input) (s : session_state) (m : machine)
    (i : nat) (a : json) (L : string) :
  refresh_clicked u = false ->
  Forall (fun b => exists K, agent_label b = JStr K) (agents s) ->
  nth_error (agents s) i = Some a -> agent_label a = JStr L -> L <> "(None)" ->
  agent_choice u = S i ->
  exists last,
    find (fun b => key_eqb (agent_label b) (JStr L)) (rev (agents s)) = Some last
    /\ selected_agent_id (fst (fst (_sidebar_ui u s m))) = agent_identity last.
Proof.
  intros Hr Hall Hnth Hlab Hnone Hchoice.
  assert (Hfind : exists last,
            find (fun b => key_eqb (agent_label b) (JStr L)) (rev (agents s)) = Some last).
  { destruct (find _ (rev (agents s))) as [b|] eqn:Ef; [now exists b|].
    apply nth_error_In in Hnth. apply in_rev in Hnth.
    pose proof (find_none _ _ Ef a Hnth) as Hc. cbn in Hc. rewrite Hlab in Hc.
    cbn in Hc. now rewrite String.eqb_refl in Hc. }
  destruct Hfind as [last Hlast]. exists last. split; [exact Hlast|].
  unfold _sidebar_ui, refresh_block, bind, ret. rewrite Hr.
  rewrite index_agents_hashable
    by (eapply Forall_impl; [|exact Hall]; cbn; intros b [K ->]; reflexivity).
  cbn [app]. unfold select_block.
  assert (Hsel : nth (agent_choice u) (none_option :: map agent_label (agents s))
                   none_option = JStr L).
  { rewrite Hchoice. cbn [nth]. apply nth_error_nth.
    rewrite nth_error_map, Hnth. cbn. now rewrite Hlab. }
  rewrite Hsel.
  assert (Hval : selection (JStr L)
                   (fold_left (fun d b => label_set (agent_label b) (agent_identity b) d)
                      (agents s) [])
                 = agent_identity last).
  { unfold selection. apply String.eqb_neq in Hnone. rewrite Hnone.
    rewrite (label_get_fold L _ [] Hall), Hlast. reflexivity. }
  rewrite Hval.
  destruct (map agent_label (agents s)) eqn:Em.
  - destruct (agents s); [destruct i; discriminate Hnth | discriminate Em].
  - unfold load_history_block, bind, ret.
    destruct (load_history_clicked u); [|reflexivity].
    now destruct (fetch_history _ m).
Qed.

End RunFacts.

Section LogFacts.
Context {RT : Runtime}.

Lemma sent_extends_refl (m : machine) : sent_extends m m.
Proof. exists []. now rewrite app_nil_r. Qed.

Lemma sent_extends_trans (m1 m2 m3 : machine) :
  sent_extends m1 m2 -> sent_extends m2 m3 -> sent_extends m1 m3.
Proof.
  intros [l1 H1] [l2 H2]. exists (l1 ++ l2)%list. now rewrite H2, H1, app_assoc.
Qed.

Lemma call_extends (c : prober) (m : machine) : sent_extends m (snd (call c m)).
Proof.
  destruct (call_prefix c m) as [(k & _ & Hk) _].
  exists (firstn k (candidate_requests c)). exact Hk.
Qed.

Lemma fetch_agents_extends (api : json) (m : machine) :
  sent_extends m (snd (fetch_agents api m)).
Proof.
  pose proof (call_extends (FetchAgents api) m) as H. cbn [call] in H.
  unfold bind, ret in H. now destruct (fetch_agents api m).
Qed.

Lemma fetch_history_extends (agent_id : json) (m : machine) :
  sent_extends m (snd (fetch_history agent_id m)).
Proof.
  pose proof (call_extends (FetchHistory agent_id) m) as H. cbn [call] in H.
  unfold bind, ret in H. now destruct (fetch_history agent_id m).
Qed.

Lemma discover_api_extends (m : machine) : sent_extends m (snd (discover_api m)).
Proof.
  unfold discover_api, _http_get, bind, ret, send.
  destruct (http_send _ (world m)) as [o w]. now eexists.
Qed.

Lemma clock_extends (m : machine) : sent_extends m (snd (clock m)).
Proof. exists []. now rewrite clock_sent, app_nil_r. Qed.

Lemma refresh_block_extends (u : ui_input) (s : session_state) (m : machine) :
  sent_extends m (snd (refresh_block u s m)).
Proof.
  unfold refresh_block, bind, ret. destruct (refresh_clicked u); [|apply sent_extends_refl].
  pose proof (discover_api_extends m) as H1.
  destruct (discover_api m) as [api m1]. cbn [snd] in H1.
  pose proof (fetch_agents_extends (api_discovery (set_api_discovery api s)) m1) as H2.
  destruct (fetch_agents _ m1) as [found m2]. cbn [snd] in *.
  exact (sent_extends_trans _ _ _ H1 H2).
Qed.

Lemma load_history_block_extends (u : ui_input) (s : session_state) (m : machine) :
  sent_extends m (snd (load_history_block u s m)).
Proof.
  unfold load_history_block, bind, ret.
  destruct (load_history_clicked u); [|apply sent_extends_refl].
  pose proof (fetch_history_extends (selected_agent_id s) m) as H.
  now destruct (fetch_history _ m).
Qed.

Lemma sidebar_extends (u : ui_input) (s : session_state) (m : machine) :
  sent_extends m (snd (_sidebar_ui u s m)).
Proof.
  unfold _sidebar_ui, bind, ret.
  pose proof (refresh_block_extends u s m) as H1.
  destruct (refresh_block u s m) as [s1 m1]. cbn [snd] in H1.
  destruct (index_agents (agents s1) [] []) as [[names ids]|]; [|exact H1].
  pose proof (load_history_block_extends u (select_block u names ids s1) m1) as H2.
  destruct (load_history_block u _ m1) as [s2 m2]. cbn [snd] in *.
  exact (sent_extends_trans _ _ _ H1 H2).
Qed.

Lemma main_panel_extends (u : ui_input) (s : session_state) (m : machine) :
  sent_extends m (snd (_main_panel u s m)).
Proof.
  unfold _main_panel, bind, ret.
  destruct (form_submitted u); [|apply sent_extends_refl].
  destruct (_ || _)%bool; [apply sent_extends_refl|].
  pose proof (clock_extends m) as H0. destruct (clock m) as [t0 m1]. cbn [snd] in H0.
  pose proof (call_extends (SubmitQuery (selected_agent_id s) (strip (prompt u))) m1) as H1.
  cbn [call] in H1. destruct (submit_query _ _ m1) as [resp m2]. cbn [snd] in H1.
  pose proof (clock_extends m2) as H2. destruct (clock m2) as [t2 m3]. cbn [snd] in H2.
  pose proof (clock_extends m3) as H3. destruct (clock m3) as [t3 m4]. cbn [snd] in H3 |- *.
  eauto using sent_extends_trans.
Qed.

Lemma fetch_agents_first_request (api : json) (m : machine) :
  exists p more,
    In p (agent_candidates api)
    /\ sent (snd (fetch_agents api m)) = (sent m ++ get_request p 20 :: more)%list.
Proof.
  destruct (call_prefix (FetchAgents api) m) as [(k & Hk & Hs) _].
  cbn [call] in Hs. unfold bind, ret in Hs.
  destruct (fetch_agents api m) as [l m']. cbn [snd] in Hs |- *.
  cbn [candidate_requests] in Hs, Hk.
  destruct (agent_candidates api) as [|p cs]; [cbn in Hk; lia|].
  destruct k as [|k]; [lia|]. cbn [map firstn] in Hs.
  exists p. eexists. split; [now left | exact Hs].
Qed.

Lemma run_tail_extends (u : ui_input) (s1 : session_state) (m1 : machine) :
  sent_extends m1
    (snd (bind (_sidebar_ui u s1)
            (fun r => let (s2, ran) := r in
                      if ran then bind (_main_panel u s2) (fun s3 => ret (s3, true))
                      else ret (s2, false)) m1)).
Proof.
  unfold bind, ret.
  pose proof (sidebar_extends u s1 m1) as H1.
  destruct (_sidebar_ui u s1 m1) as [[s2 ran] m2]. cbn [snd] in H1.
  destruct ran; [|exact H1].
  pose proof (main_panel_extends u s2 m2) as H2.
  destruct (_main_panel u s2 m2) as [s3 m3]. cbn [snd] in *.
  exact (sent_extends_trans _ _ _ H1 H2).
Qed.

Lemma main_prelude_probes (u : ui_input) (stored : option session_state) (m : machine) :
  agents (_init_session_state stored) = [] ->
  exists s1 m1 before p more,
    main u stored m
    = bind (_sidebar_ui u s1)
        (fun r => let (s2, ran) := r in
                  if ran then bind (_main_panel u s2) (fun s3 => ret (s3, true))
                  else ret (s2, false)) m1
    /\ sent m1 = (sent m ++ before ++ get_request p 20 :: more)%list
    /\ exists api, In p (agent_candidates api).
Proof.
  intros Hempty. unfold main. cbv beta delta [bind ret].
  set (s0 := _init_session_state stored) in *.
  destruct (negb (truthy (api_discovery s0))).
  - pose proof (discover_api_extends m) as [l0 H0].
    destruct (discover_api m) as [api m0]. cbn [snd] in H0. cbv beta iota.
    change (agents (set_api_discovery api s0)) with (agents s0). rewrite Hempty.
    destruct (fetch_agents_first_request (api_discovery (set_api_discovery api s0)) m0)
      as (p & more & Hp & Hs).
    destruct (fetch_agents _ m0) as [found m1]. cbn [snd] in Hs. cbv beta iota.
    eexists _, m1, l0, p, more. split; [reflexivity|]. split; [|eauto].
    rewrite Hs, H0. now rewrite <- app_assoc.
  - cbv beta iota. rewrite Hempty.
    destruct (fetch_agents_first_request (api_discovery s0) m) as (p & more & Hp & Hs).
    destruct (fetch_agents _ m) as [found m1]. cbn [snd] in Hs. cbv beta iota.
    eexists _, m1, [], p, more. split; [reflexivity|]. split; [exact Hs | eauto].
Qed.

(** X15. As long as the session knows no agent, every script run probes the
    agent endpoints again, whatever the user did: among the requests of the
    run there is a GET with timeout 20 for a candidate path of
    [fetch_agents]. *)
Theorem no_agents_probes_again (u : ui_input) (stored : option session_state)
    (m : machine) :
  agents (_init_session_state stored) = [] ->
  exists before p after,
    sent (snd (main u stored m)) = (sent m ++ before ++ get_request p 20 :: after)%list
    /\ exists api, In p (agent_candidates api).
Proof.
  intros Hempty.
  destruct (main_prelude_probes u stored m Hempty)
    as (s1 & m1 & before & p & more & -> & Hm1 & Hp).
  destruct (run_tail_extends u s1 m1) as [l Hl].
  exists before, p, (more ++ l)%list. split; [|exact Hp].
  rewrite Hl, Hm1. now rewrite <- !app_assoc.
Qed.





Lemma listable_history_listed (h : list json) :
  Forall (fun item => listable item = true) h -> history_listed h = true.
Proof.
  intros Hall. unfold history_listed, sidebar_history. apply forallb_forall.
  intros line Hin. apply in_map_iff in Hin. destruct Hin as (item & <- & Hin).
  apply in_rev in Hin. unfold last_n in Hin.
  assert (Hh : In item h)
    by (rewrite <- (firstn_skipn (List.length h - 10) h); apply in_or_app; now right).
  rewrite Forall_forall in Hall. specialize (Hall item Hh). unfold listable in Hall.
  now destruct (history_line item).
Qed.

(** X17. The interactions the program records itself can always be listed:
    if every item of the log can be listed by the sidebar before a script
    run and "Load History" is not clicked, the same holds after the run, and
    the sidebar of the next run will not stop on the log. *)
Theorem log_stays_listable (u : ui_input) (stored : option session_state) (m : machine) :
  Forall (fun item => listable item = true) (history (_init_session_state stored)) ->
  load_history_clicked u = false ->
  Forall (fun item => listable item = true) (history (fst (fst (main u stored m))))
  /\ history_listed (history (fst (fst (main u stored m)))) = true.
Proof.
  intros Hall Hload.
  assert (Hafter : Forall (fun item => listable item = true)
                     (history (fst (fst (main u stored m))))).
  { destruct (main_unfold u stored m) as (s1 & m1 & Hs1 & ->).
    rewrite <- Hs1 in Hall. unfold bind, ret.
    pose proof (sidebar_history_cases u s1 m1) as Hside.
    destruct (_sidebar_ui u s1 m1) as [[s2 ran] m2]. cbn [fst] in Hside.
    destruct Hside as [Hside | [Hc _]]; [|congruence].
    destruct ran; [|cbn [fst]; now rewrite Hside].
    pose proof (main_panel_history u s2 m2) as Hpanel.
    destruct (_main_panel u s2 m2) as [s3 m3]. cbn [fst] in Hpanel |- *.
    rewrite Hpanel, Hside.
    destruct (form_submitted u && _)%bool; [|exact Hall].
    apply Forall_app. split; [exact Hall|]. now repeat constructor. }
  split; [exact Hafter | now apply listable_history_listed].
Qed.



End LogFacts.

(* ================================================================== *)
(** * Further properties of the response renderer *)
(* ================================================================== *)

Section RenderMore.
Context {RT : Runtime}.

Lemma render_reference_markdown (r : json) :
  exists t, render_reference r = StMarkdown t false.
Proof.
  destruct r; cbn [render_reference]; try now eexists.
  destruct (truthy (dict_get "url" d)); now eexists.
Qed.

Lemma find_text_first (before after : list string) (k : string)
    (d : list (string * json)) (s : string) :
  (forall k', In k' before -> forall t, dict_lookup k' d <> Some (JStr t)) ->
  dict_lookup k d = Some (JStr s) ->
  find_text (before ++ k :: after) d = Some s.
Proof.
  intros Hbefore Hk. induction before as [|b before IH]; cbn [app find_text].
  - now rewrite Hk.
  - assert (Hb : forall t, dict_lookup b d <> Some (JStr t))
      by (apply Hbefore; now left).
    assert (IH' : find_text (before ++ k :: after) d = Some s)
      by (apply IH; intros k' Hin; apply Hbefore; now right).
    destruct (dict_lookup b d) as [[| | | |t| |]|]; try exact IH'.
    now contradiction (Hb t).
Qed.

(** X19. The primary text is taken from the first of the keys [answer],
    [response], [output], [result], [content], [text] that holds a string;
    keys before it that are missing or hold something else are passed over.
    When that string is empty no text is shown at all, even if a later key
    holds one. *)
Theorem primary_text_priority (d : list (string * json)) (before after : list string)
    (k s : string) :
  text_keys = (before ++ k :: after)%list ->
  (forall k', In k' before -> forall t, dict_lookup k' d <> Some (JStr t)) ->
  dict_lookup k d = Some (JStr s) ->
  exists refs,
    _render_response (JDict d)
    = (match s with
       | EmptyString => []
       | _ => [StMarkdown card_open true; StMarkdown s false; StMarkdown card_close true]
       end
       ++ refs ++ [StExpander "Raw JSON" [StJson (JDict d)]])%list
    /\ Forall (fun c => exists t, c = StMarkdown t false) refs.
Proof.
  intros Hkeys Hbefore Hk. cbn [_render_response]. unfold render_dict.
  rewrite Hkeys, (find_text_first before after k d s Hbefore Hk).
  eexists. split; [destruct s; reflexivity|].
  destruct (py_or _ _) as [| | | | |[|entry entries]|]; try constructor.
  - now eexists.
  - apply Forall_forall. intros c Hin. apply in_map_iff in Hin.
    destruct Hin as (r & <- & _). apply render_reference_markdown.
Qed.

(** X20. The references are taken from the first truthy value among
    [references], [citations], [sources].  When [references] is truthy but
    not a list (a string, say), no references section is rendered, even if
    [citations] or [sources] holds a list. *)
Theorem references_not_a_list (d : list (string * json)) :
  truthy (dict_get "references" d) = true ->
  (forall l, dict_get "references" d <> JList l) ->
  exists card,
    _render_response (JDict d)
    = (card ++ [StExpander "Raw JSON" [StJson (JDict d)]])%list
    /\ (card = []
        \/ exists s, card = [StMarkdown card_open true; StMarkdown s false;
                             StMarkdown card_close true]).
Proof.
  intros Ht Hl. cbn [_render_response]. unfold render_dict, py_or.
  rewrite Ht, Ht.
  eexists. split.
  - destruct (dict_get "references" d) as [| | | | |l|];
      try reflexivity. now contradiction (Hl l).
  - destruct (find_text text_keys d) as [[|c s]|]; [now left | | now left].
    right. now exists (String c s).
Qed.

(** X21. A list response is rendered element by element: before the
    rendering of its i-th element (counted from 1) comes the label
    "Item i", and nothing else is emitted; an empty list renders nothing.
    Numbering starts again at 1 inside a nested list. *)
Theorem render_list_positions (l : list json) :
  _render_response (JList l)
  = List.concat
      (map (fun p => StMarkdown ("**Item " ++ str_of_int (Z.of_nat (S (fst p))) ++ "**") false
                     :: _render_response (snd p))
         (combine (seq 0 (List.length l)) l)).
Proof.
  cbn [_render_response].
  match goal with
  | |- ?items l 1 = _ =>
      assert (H : forall rest k,
                items rest (Z.of_nat (S k))
                = List.concat
                    (map (fun p => StMarkdown ("**Item " ++ str_of_int (Z.of_nat (S (fst p)))
                                               ++ "**") false
                                   :: _render_response (snd p))
                       (combine (seq k (List.length rest)) rest)))
  end.
  { induction rest as [|it rest IH]; intros k; [reflexivity|].
    cbn [List.length seq combine map List.concat fst snd app]. f_equal. f_equal.
    replace (Z.of_nat (S k) + 1) with (Z.of_nat (S (S k))) by lia.
    apply IH. }
  exact (H l 0%nat).
Qed.

End RenderMore.

Section LogMore.
Context {RT : Runtime}.


End LogMore.

(* ================================================================== *)
(** * The further properties at concrete inputs *)
(* ================================================================== *)

Lemma scripted_later (w : @World scripted) : @later scripted [] w -> w = [].
Proof.
  intros H. induction H as [|w' req _ IH|w' _ IH]; [reflexivity | |]; now subst.
Qed.

Lemma scripted_down : @down scripted [].
Proof. intros w req H. apply scripted_later in H. now subst. Qed.

Lemma fetch_history_without_agent_witness :
  truthy (JInt 0) = false
  /\ exists k,
       (1 <= k <= 2)%nat
       /\ sent (snd (@fetch_history scripted (JInt 0) (boot [])))
          = ([] ++ firstn k [@get_request scripted "/history" 30;
                             @get_request scripted "/api/history" 30])%list.
Proof.
  split; [reflexivity|].
  exact (@fetch_history_without_agent scripted (JInt 0) (boot []) eq_refl).
Defined.


Lemma no_agent_paths_no_discovery_witness :
  path_table doc_no_agent_paths = JDict [("/health", JInt 5); ("/users", JNull)]
  /\ probe_order doc_no_agent_paths = (fixed_candidates, false).
Proof.
  split; [reflexivity|].
  apply (no_agent_paths_no_discovery doc_no_agent_paths
           [("/health", JInt 5); ("/users", JNull)]); [reflexivity|].
  repeat constructor.
Defined.

Lemma discovered_in_reverse_order_witness :
  snd (probe_order doc_three_agents) = false
  /\ agent_candidates doc_three_agents
     = ["/c/Agent"; "/b/agents"; "/a/agents"; "/agents"; "/api/agents"].
Proof.
  split; [reflexivity|].
  apply (discovered_in_reverse_order doc_three_agents three_agent_paths);
    [reflexivity | | reflexivity].
  repeat constructor; cbn; intuition discriminate.
Defined.

Lemma refresh_while_down_witness :
  @down scripted []
  /\ api_discovery (fst (fst (@_sidebar_ui scripted click_refresh session_one (boot []))))
     = JDict []
  /\ agents (fst (fst (@_sidebar_ui scripted click_refresh session_one (boot [])))) = []
  /\ selected_agent_id
       (fst (fst (@_sidebar_ui scripted click_refresh session_one (boot []))))
     = selected_agent_id session_one.
Proof.
  split; [exact scripted_down|].
  exact (@refresh_while_down scripted click_refresh session_one (boot [])
           scripted_down eq_refl).
Defined.





Lemma selection_by_label_witness :
  nth_error (agents session_twins) 0 = Some (JDict [("id", JStr "a1"); ("name", JStr "Alpha")])
  /\ exists last,
       find (fun b => key_eqb (agent_label (RT := scripted) b) (JStr "Alpha"))
         (rev (agents session_twins)) = Some last
       /\ selected_agent_id
            (fst (fst (@_sidebar_ui scripted choose_and_submit session_twins (boot []))))
          = agent_identity (RT := scripted) last.
Proof.
  split; [reflexivity|].
  apply (@selection_by_label scripted choose_and_submit session_twins (boot []) 0
           (JDict [("id", JStr "a1"); ("name", JStr "Alpha")]) "Alpha");
    try reflexivity.
  - repeat constructor; eexists; reflexivity.
  - discriminate.
Defined.

Lemma no_agents_probes_again_witness :
  agents (_init_session_state (Some session_no_agents)) = []
  /\ exists before p after,
       sent (snd (@main scripted idle (Some session_no_agents) (boot [])))
       = ([] ++ before ++ @get_request scripted p 20 :: after)%list
       /\ exists api, In p (agent_candidates api).
Proof.
  split; [reflexivity|].
  exact (@no_agents_probes_again scripted idle (Some session_no_agents) (boot []) eq_refl).
Defined.


Lemma log_stays_listable_witness :
  load_history_clicked choose_and_submit = false
  /\ Forall (fun item => listable (RT := scripted) item = true)
       (history (fst (fst (@main scripted choose_and_submit (Some session_one) (boot [])))))
  /\ history_listed (RT := scripted)
       (history (fst (fst (@main scripted choose_and_submit (Some session_one) (boot [])))))
     = true.
Proof.
  split; [reflexivity|].
  apply (@log_stays_listable scripted choose_and_submit (Some session_one) (boot []));
    [|reflexivity].
  repeat constructor.
Defined.


Lemma primary_text_priority_witness :
  dict_lookup "response" empty_answer = Some (JStr "")
  /\ exists refs,
       @_render_response scripted (JDict empty_answer)
       = ([] ++ refs ++ [StExpander "Raw JSON" [StJson (JDict empty_answer)]])%list
       /\ Forall (fun c => exists t, c = StMarkdown t false) refs.
Proof.
  split; [reflexivity|].
  apply (@primary_text_priority scripted empty_answer ["answer"]
           ["output"; "result"; "content"; "text"] "response" "");
    [reflexivity | | reflexivity].
  intros k' [<- | []] t. cbn. discriminate.
Defined.

Lemma references_not_a_list_witness :
  truthy (dict_get "references" text_references) = true
  /\ exists card,
       @_render_response scripted (JDict text_references)
       = (card ++ [StExpander "Raw JSON" [StJson (JDict text_references)]])%list
       /\ (card = []
           \/ exists s, card = [StMarkdown card_open true; StMarkdown s false;
                                StMarkdown card_close true]).
Proof.
  split; [reflexivity|].
  apply (@references_not_a_list scripted text_references); [reflexivity|].
  intros l. cbn. discriminate.
Defined.

